(** * spiel25-imap: favourites lists, stand geometry, exhibitor merge, print zoom

    A shallow embedding of [src/Map.tsx] and [src/EasyPrintControl.tsx].

    Conventions of the embedding.
    - JavaScript strings are [string], the UTF-8 bytes of the text;
      [null]/[undefined] is [None].
    - The React component state of [Map] is the record [Favorites.State];
      an event handler is a function on it, and the two effects that depend
      on [favorites, listKey] are run after a handler that changed one of
      them (React flushes them at the end of the commit of a click or
      hashchange handler).
    - [localStorage] is an association list in key-enumeration order.  The
      program only ever stores [JSON.stringify] of a string array and reads
      it back with [JSON.parse]; the embedding keeps the array itself.
    - The state keeps the text last assigned to [window.location.hash]
      (or the fragment the page was opened with); what the browser makes of
      it, dropping tabs and newlines and percent-encoding, is applied where
      the hash is read ([Url.fragment_text], [Favorites.location_hash]).
    - The lz-string codec, [Math.random] and the answer of [window.confirm]
      are inputs. *)

From Stdlib Require Import String Ascii List ZArith QArith Bool Arith Lia.
Import ListNotations.
Close Scope Q_scope.
Local Open Scope string_scope.
Local Open Scope list_scope.

(** ** JavaScript string and array primitives used by the source *)
Module JS.

(** Truthiness of a string: only the empty string is falsy. *)
Definition truthy (s : string) : bool :=
  match s with EmptyString => false | String _ _ => true end.

(** Truthiness of [string | null]. *)
Definition truthy_opt (o : option string) : bool :=
  match o with Some s => truthy s | None => false end.

(** [a || b] on [string | null] with a string default. *)
Definition or_else (o : option string) (d : string) : string :=
  match o with
  | Some s => if truthy s then s else d
  | None => d
  end.

(** [`${k}`] for [k : string | null]. *)
Definition template (k : option string) : string :=
  match k with Some s => s | None => "null" end.

(** [s.split(sep)] for a one-character separator: never the empty array. *)
Fixpoint split (sep : ascii) (s : string) : list string :=
  match s with
  | EmptyString => [EmptyString]
  | String c rest =>
      if Ascii.eqb c sep then EmptyString :: split sep rest
      else match split sep rest with
           | [] => [String c EmptyString]
           | t :: ts => String c t :: ts
           end
  end.

(** [l.join(sep)]. *)
Fixpoint join (sep : string) (l : list string) : string :=
  match l with
  | [] => EmptyString
  | [x] => x
  | x :: rest => (x ++ sep ++ join sep rest)%string
  end.

(** [l.includes(x)]. *)
Definition includes (x : string) (l : list string) : bool :=
  existsb (String.eqb x) l.

(** [s.startsWith(p)]. *)
Definition startsWith (p s : string) : bool := String.prefix p s.

(** [s.replace(pat, empty)] with a string pattern: the first occurrence of
    [pat] is removed. *)
Fixpoint remove_first (pat s : string) : string :=
  if String.prefix pat s then
    String.substring (String.length pat) (String.length s - String.length pat) s
  else match s with
       | EmptyString => EmptyString
       | String c rest => String c (remove_first pat rest)
       end.

(** White space and line terminators of [String.prototype.trim], by the
    length of their UTF-8 encoding. One byte: tab, line feed, vertical tab,
    form feed, carriage return, space. *)
Definition is_space (c : ascii) : bool :=
  let n := nat_of_ascii c in
  ((n =? 9) || (n =? 10) || (n =? 11) || (n =? 12) || (n =? 13) || (n =? 32))%nat.

(** Two bytes: U+00A0. *)
Definition is_space2 (c1 c2 : ascii) : bool :=
  ((nat_of_ascii c1 =? 194) && (nat_of_ascii c2 =? 160))%nat.

(** Three bytes: U+1680, U+2000 to U+200A, U+2028, U+2029, U+202F, U+205F,
    U+3000, U+FEFF. *)
Definition is_space3 (c1 c2 c3 : ascii) : bool :=
  let n1 := nat_of_ascii c1 in
  let n2 := nat_of_ascii c2 in
  let n3 := nat_of_ascii c3 in
  ((n1 =? 225) && (n2 =? 154) && (n3 =? 128)
   || (n1 =? 226) && (n2 =? 128)
      && ((128 <=? n3) && (n3 <=? 138)
          || (n3 =? 168) || (n3 =? 169) || (n3 =? 175))
   || (n1 =? 226) && (n2 =? 129) && (n3 =? 159)
   || (n1 =? 227) && (n2 =? 128) && (n3 =? 128)
   || (n1 =? 239) && (n2 =? 187) && (n3 =? 191))%nat.

(** The text is exactly one white-space character. *)
Definition is_space_char (t : string) : bool :=
  match t with
  | String c EmptyString => is_space c
  | String c1 (String c2 EmptyString) => is_space2 c1 c2
  | String c1 (String c2 (String c3 EmptyString)) => is_space3 c1 c2 c3
  | _ => false
  end.

Fixpoint trim_start (s : string) : string :=
  match s with
  | EmptyString => EmptyString
  | String c1 t1 =>
      if is_space c1 then trim_start t1
      else match t1 with
           | String c2 t2 =>
               if is_space2 c1 c2 then trim_start t2
               else match t2 with
                    | String c3 t3 =>
                        if is_space3 c1 c2 c3 then trim_start t3 else s
                    | EmptyString => s
                    end
           | EmptyString => s
           end
  end.

Fixpoint trim_end (s : string) : string :=
  match s with
  | EmptyString => EmptyString
  | String c rest =>
      let r := trim_end rest in
      if is_space_char (String c r) then EmptyString else String c r
  end.

(** [s.trim()]. *)
Definition trim (s : string) : string := trim_end (trim_start s).

(** [l.map((x, i) => f(x, i))]. *)
Fixpoint mapi_from {A B} (i : nat) (f : A -> nat -> B) (l : list A) : list B :=
  match l with
  | [] => []
  | x :: rest => f x i :: mapi_from (S i) f rest
  end.

Definition mapi {A B} (f : A -> nat -> B) (l : list A) : list B :=
  mapi_from 0 f l.

(** [l.pop()] read as the last element ([undefined] on the empty array). *)
Fixpoint pop (l : list string) : option string :=
  match l with
  | [] => None
  | [x] => Some x
  | _ :: rest => pop rest
  end.

End JS.

(** ** [URLSearchParams] as the source uses it: [new URLSearchParams("?" + hash)]
    and [params.get(name)] (application/x-www-form-urlencoded parsing). *)
Module Url.

(** What the hash setter keeps of the text assigned (fragment state of the
    URL parser): tabs and newlines are dropped; control characters, space,
    the double quote, [<], [>], the backquote and every byte from 127 on are
    written as [%] and two upper-case hexadecimal digits. *)
Definition hex_digit (n : nat) : ascii :=
  ascii_of_nat (if (n <? 10)%nat then 48 + n else 55 + n).

Definition tab_or_newline (c : ascii) : bool :=
  let n := nat_of_ascii c in ((n =? 9) || (n =? 10) || (n =? 13))%nat.

Definition fragment_encoded (c : ascii) : bool :=
  let n := nat_of_ascii c in
  ((n <? 32) || (126 <? n) || (n =? 32) || (n =? 34) || (n =? 60)
   || (n =? 62) || (n =? 96))%nat.

Fixpoint fragment_text (s : string) : string :=
  match s with
  | EmptyString => EmptyString
  | String c t =>
      if tab_or_newline c then fragment_text t
      else if fragment_encoded c then
        String "%" (String (hex_digit (nat_of_ascii c / 16))
                      (String (hex_digit (nat_of_ascii c mod 16))
                              (fragment_text t)))
      else String c (fragment_text t)
  end.

Definition hex_val (c : ascii) : option nat :=
  let n := nat_of_ascii c in
  if ((48 <=? n) && (n <=? 57))%nat then Some (n - 48)
  else if ((65 <=? n) && (n <=? 70))%nat then Some (n - 55)
  else if ((97 <=? n) && (n <=? 102))%nat then Some (n - 87)
  else None.

Fixpoint percent_decode (s : string) : string :=
  match s with
  | EmptyString => EmptyString
  | String c t =>
      if Ascii.eqb c "%" then
        match t with
        | String h (String l rest) =>
            match hex_val h, hex_val l with
            | Some a, Some b =>
                String (ascii_of_nat (16 * a + b)) (percent_decode rest)
            | _, _ => String c (percent_decode t)
            end
        | _ => String c (percent_decode t)
        end
      else String c (percent_decode t)
  end.

Fixpoint plus_to_space (s : string) : string :=
  match s with
  | EmptyString => EmptyString
  | String c t =>
      String (if Ascii.eqb c "+" then " "%char else c) (plus_to_space t)
  end.

Definition form_decode (s : string) : string :=
  percent_decode (plus_to_space s).

(** A [name=value] segment is cut at its first [=]. *)
Fixpoint cut_pair (s : string) : string * string :=
  match s with
  | EmptyString => (EmptyString, EmptyString)
  | String c t =>
      if Ascii.eqb c "=" then (EmptyString, t)
      else let (n, v) := cut_pair t in (String c n, v)
  end.

Definition URLSearchParams (init : string) : list (string * string) :=
  let body := match init with
              | String c t => if Ascii.eqb c "?" then t else init
              | EmptyString => init
              end in
  map (fun seg => let (n, v) := cut_pair seg in (form_decode n, form_decode v))
      (filter JS.truthy (JS.split "&" body)).

Fixpoint get (name : string) (params : list (string * string)) : option string :=
  match params with
  | [] => None
  | (n, v) :: rest => if String.eqb n name then Some v else get name rest
  end.

End Url.

(** ** [localStorage]: keys in enumeration order, values the stored arrays *)
Module Storage.

Definition t := list (string * list string).

Fixpoint getItem (k : string) (st : t) : option (list string) :=
  match st with
  | [] => None
  | (k', v) :: rest => if String.eqb k' k then Some v else getItem k rest
  end.

Fixpoint setItem (k : string) (v : list string) (st : t) : t :=
  match st with
  | [] => [(k, v)]
  | (k', v') :: rest =>
      if String.eqb k' k then (k, v) :: rest else (k', v') :: setItem k v rest
  end.

Definition removeItem (k : string) (st : t) : t :=
  filter (fun kv => negb (String.eqb (fst kv) k)) st.

(** [Object.keys(localStorage)]. *)
Definition keys (st : t) : list string := map fst st.

End Storage.

(** What a call into the lz-string decoder can do. *)
Inductive outcome (A : Type) : Type :=
| Returns (a : A)
| Throws.
Arguments Returns {A} a.
Arguments Throws {A}.

(** ** The favourites state of [Map] and its handlers *)
Module Favorites.

Record State := mkState {
  listKey : option string;
  favorites : list string;
  favoriteLists : list string;
  newListName : string;
  localStorage : Storage.t;
  fragment : string;          (* the text last assigned to window.location.hash *)
  console : list string       (* console.warn messages, oldest first *)
}.

Definition setListKey (k : option string) (s : State) : State :=
  mkState k (favorites s) (favoriteLists s) (newListName s)
          (localStorage s) (fragment s) (console s).

Definition setFavorites (f : list string) (s : State) : State :=
  mkState (listKey s) f (favoriteLists s) (newListName s)
          (localStorage s) (fragment s) (console s).

Definition setFavoriteLists (l : list string) (s : State) : State :=
  mkState (listKey s) (favorites s) l (newListName s)
          (localStorage s) (fragment s) (console s).

Definition setNewListName (n : string) (s : State) : State :=
  mkState (listKey s) (favorites s) (favoriteLists s) n
          (localStorage s) (fragment s) (console s).

Definition withStorage (f : Storage.t -> Storage.t) (s : State) : State :=
  mkState (listKey s) (favorites s) (favoriteLists s) (newListName s)
          (f (localStorage s)) (fragment s) (console s).

(** [window.location.hash = v]: one leading [#] of [v] is dropped. The
    state keeps the text assigned; the browser's rewriting of it is applied
    by [location_hash], where the hash is read. *)
Definition setHash (v : string) (s : State) : State :=
  let frag := match v with
              | String c t => if Ascii.eqb c "#" then t else v
              | EmptyString => v
              end in
  mkState (listKey s) (favorites s) (favoriteLists s) (newListName s)
          (localStorage s) frag (console s).

(** Reading [window.location.hash]: empty, or [#] and the fragment as the
    browser holds it. *)
Definition location_hash (s : State) : string :=
  match Url.fragment_text (fragment s) with
  | EmptyString => EmptyString
  | f => String "#" f
  end.

Definition warn (msg : string) (s : State) : State :=
  mkState (listKey s) (favorites s) (favoriteLists s) (newListName s)
          (localStorage s) (fragment s) (console s ++ [msg]).

Definition adjectives : list string :=
  ["brave"; "cheeky"; "happy"; "sleepy"; "sneaky"; "gentle"; "noisy"; "bouncy"].

Definition animals : list string :=
  ["otter"; "fox"; "tiger"; "panda"; "sloth"; "owl"; "lizard"; "turtle"].

(** [generateRandomListName]; [r1], [r2] are the two values of
    [Math.floor(Math.random() * 8)]. *)
Definition generateRandomListName (r1 r2 : nat) : string :=
  (nth r1 adjectives "undefined" ++ "-" ++ nth r2 animals "undefined")%string.

(** The key scan [Object.keys(localStorage).filter(..).map(..)]. *)
Definition savedLists (st : Storage.t) : list string :=
  map (JS.remove_first "favorites:")
      (filter (JS.startsWith "favorites:") (Storage.keys st)).

(** [JSON.parse(localStorage.getItem(`favorites:${k}`) || "[]")]. *)
Definition stored (k : string) (st : Storage.t) : list string :=
  match Storage.getItem ("favorites:" ++ k)%string st with
  | Some l => l
  | None => []
  end.

(** The updater of [toggleFavorite]. *)
Definition toggled (label : string) (prev : list string) : list string :=
  if JS.includes label prev
  then filter (fun f => negb (String.eqb f label)) prev
  else prev ++ [label].

(** The lz-string codec is an input of the development. *)
Section Codec.

Variable compressToEncodedURIComponent : string -> string.
Variable decompressFromEncodedURIComponent : string -> outcome (option string).

(** The fragment text [`list=${key}&favs=${compressed}`]. *)
Definition listHash (key : string) (favs : list string) : string :=
  ("list=" ++ key ++ "&favs="
     ++ compressToEncodedURIComponent (JS.join "," favs))%string.

(** The body of the [try] block of [loadInitialList]: the value assigned to
    [favsFromUrl], or the exception of the decoder. *)
Definition favsFromUrl_try (favEncoded : option string)
  : outcome (list string) :=
  match favEncoded with
  | Some enc =>
      if JS.truthy enc then
        match decompressFromEncodedURIComponent enc with
        | Throws => Throws
        | Returns (Some decoded) =>
            if JS.truthy decoded
            then Returns (filter JS.truthy
                            (map JS.trim (JS.split "," decoded)))
            else Returns []
        | Returns None => Returns []
        end
      else Returns []
  | None => Returns []
  end.

(** [try { .. } catch (e) { console.warn(..) }] around it: [favsFromUrl]
    keeps its initial [[]] when the body throws. *)
Definition decodeFavs (favEncoded : option string) (s : State)
  : list string * State :=
  match favsFromUrl_try favEncoded with
  | Returns l => (l, s)
  | Throws => ([], warn "Error decoding favorites from URL:" s)
  end.

Definition loadInitialList (r1 r2 : nat) (s : State) : State :=
  let h := location_hash s in
  let hash := if JS.startsWith "#" h
              then String.substring 1 (String.length h - 1) h else h in
  let params := Url.URLSearchParams ("?" ++ hash)%string in
  let keyFromHash := Url.get "list" params in
  let favEncoded := Url.get "favs" params in
  if JS.truthy_opt keyFromHash then
    let (favsFromUrl, s1) := decodeFavs favEncoded s in
    setFavorites favsFromUrl (setListKey keyFromHash s1)
  else
    let legacy := match Storage.getItem "favorites" (localStorage s) with
                  | Some l => l
                  | None => []
                  end in
    if (0 <? List.length legacy)%nat then
      let newKey := generateRandomListName r1 r2 in
      let s1 := withStorage
                  (Storage.setItem ("favorites:" ++ newKey)%string legacy) s in
      let s2 := withStorage (Storage.removeItem "favorites") s1 in
      setHash (listHash newKey legacy)
              (setFavorites legacy (setListKey (Some newKey) s2))
    else
      match savedLists (localStorage s) with
      | firstKey :: _ =>
          setFavorites (stored firstKey (localStorage s))
                       (setListKey (Some firstKey) s)
      | [] => setFavorites [] (setListKey None s)
      end.

(** The effect "Sync favorites to localStorage and URL". *)
Definition syncEffect (s : State) : State :=
  if JS.truthy_opt (listKey s) then
    let k := JS.template (listKey s) in
    setHash (listHash k (favorites s))
            (withStorage (Storage.setItem ("favorites:" ++ k)%string
                                          (favorites s)) s)
  else s.

(** The effect "Load all favorite list names". *)
Definition updateLists (s : State) : State :=
  setFavoriteLists (savedLists (localStorage s)) s.

Definition toggleFavorite (label : string) (s : State) : State :=
  let updated := toggled label (favorites s) in
  setFavorites updated
    (withStorage
       (Storage.setItem ("favorites:" ++ JS.template (listKey s))%string
                        updated) s).

(** [key === listKey]. *)
Definition is_active (key : string) (s : State) : bool :=
  match listKey s with
  | Some k => String.eqb key k
  | None => false
  end.

(** The "select list" button. *)
Definition selectList (key : string) (s : State) : State :=
  let st := stored key (localStorage s) in
  setHash ("list=" ++ key ++ "&favs=" ++ JS.join "," st)%string
          (setFavorites st (setListKey (Some key) s)).

(** The "delete list" button; [confirmed] is the answer of [window.confirm]. *)
Definition deleteList (key : string) (confirmed : bool) (s : State) : State :=
  if negb confirmed then s
  else
    let s1 := withStorage (Storage.removeItem ("favorites:" ++ key)%string) s in
    let s2 :=
      if is_active key s then
        let allKeys := savedLists (localStorage s1) in
        let fallbackKey := match allKeys with
                           | k :: _ => if JS.truthy k then Some k else None
                           | [] => None
                           end in
        match fallbackKey with
        | Some fk =>
            let fallbackFavorites := stored fk (localStorage s1) in
            setHash (listHash fk fallbackFavorites)
                    (setFavorites fallbackFavorites
                                  (setListKey (Some fk) s1))
        | None => setHash EmptyString (setFavorites [] (setListKey None s1))
        end
      else s1 in
    setFavoriteLists (savedLists (localStorage s2)) s2.

(** The "create" button. *)
Definition createList (s : State) : State :=
  let newKey := JS.trim (newListName s) in
  if JS.truthy newKey && negb (JS.includes newKey (favoriteLists s)) then
    setHash ("list=" ++ newKey)%string
      (setNewListName EmptyString
         (setFavorites []
            (setListKey (Some newKey)
               (withStorage
                  (Storage.setItem ("favorites:" ++ newKey)%string []) s))))
  else s.

(** The "share list" button: the text written to the clipboard. *)
Definition shareUrl (origin pathname : string) (s : State) : string :=
  (origin ++ pathname ++ "#list=" ++ JS.template (listKey s) ++ "&favs="
     ++ compressToEncodedURIComponent (JS.join "," (favorites s)))%string.

(** The user and browser events that reach the favourites state.
    [LoadInitial] is the mount and every [hashchange]. *)
Inductive Action : Type :=
| Toggle (label : string)
| Select (key : string)
| Delete (key : string) (confirmed : bool)
| TypeName (v : string)
| Create
| LoadInitial (r1 r2 : nat).

Definition handler (a : Action) (s : State) : State :=
  match a with
  | Toggle label => toggleFavorite label s
  | Select key => selectList key s
  | Delete key confirmed => deleteList key confirmed s
  | TypeName v => setNewListName v s
  | Create => createList s
  | LoadInitial r1 r2 => loadInitialList r1 r2 s
  end.

(** Whether the handler called [setFavorites] or [setListKey] (always with a
    fresh array), so that the effects on [favorites, listKey] run. *)
Definition effects_due (a : Action) (s : State) : bool :=
  match a with
  | Toggle _ | Select _ | LoadInitial _ _ => true
  | Delete key confirmed => confirmed && is_active key s
  | TypeName _ => false
  | Create =>
      let newKey := JS.trim (newListName s) in
      JS.truthy newKey && negb (JS.includes newKey (favoriteLists s))
  end.

(** One event: the handler, then the effects in declaration order. *)
Definition step (a : Action) (s : State) : State :=
  let s' := handler a s in
  if effects_due a s then updateLists (syncEffect s') else s'.

End Codec.

End Favorites.

(** ** The stand view models of [Map]: geometry and exhibitor merge *)
Module MapView.

(** JavaScript numbers as the geometry code uses them: unary minus, [+],
    [Number(string)], and the [NaN] that [-undefined] evaluates to. *)
Class JsNumber (num : Type) : Type := {
  NaN : num;
  neg : num -> num;
  add : num -> num -> num;
  Number : string -> num
}.

Record SpielMapInfo := {
  map_ID : string;
  map_W : Z;
  map_H : Z;
  map_NAME : string;
  PARENT_ELEMENT_ID : string;
  FLOOR : Z
}.

Record SpielMapElement (num : Type) := {
  ID : string;
  KARTEN_ID : string;
  X : num;
  Y : num;
  W : num;
  H : num;
  XCOORDS : option string;
  YCOORDS : option string;
  TYPE : Z;
  STAND_ID : option string;
  NAME : option string
}.
Arguments ID {num}.
Arguments KARTEN_ID {num}.
Arguments X {num}.
Arguments Y {num}.
Arguments W {num}.
Arguments H {num}.
Arguments XCOORDS {num}.
Arguments YCOORDS {num}.
Arguments TYPE {num}.
Arguments STAND_ID {num}.
Arguments NAME {num}.

Module Company.
Record t := {
  id : Z;
  name : string;
  description : string;
  website : option string;
  booths : list string
}.
End Company.

(** The entries of [exhibitor.all]. *)
Module Exhibitor.
Record t := {
  stand : string;
  title : string;
  description : string;
  website : option string;
  booths : list string
}.
End Exhibitor.

(** The [exhibitor] object of a [MapStand]. *)
Module Info.
Record t := {
  stand : string;
  title : string;
  description : string;
  logo : option string;
  website : string;
  url : string;
  booths : list string;
  all : list Exhibitor.t
}.
End Info.

Record MapStand (num : Type) := {
  label : string;
  points : list (num * num);
  exhibitor : Info.t
}.
Arguments label {num}.
Arguments points {num}.
Arguments exhibitor {num}.

Definition LF : string := String (ascii_of_nat 10) EmptyString.

(** The hall shown first: [data.maps.find((m) => m.ID === "1") ||
    data.maps[0]]. *)
Definition initialMap (maps : list SpielMapInfo) : option SpielMapInfo :=
  match find (fun m => String.eqb (map_ID m) "1") maps with
  | Some m => Some m
  | None => hd_error maps
  end.

(** The two corners given to [LatLngBounds] for the image overlay, as
    (lat, lng) pairs. *)
Definition bounds (selectedSpielMap : option SpielMapInfo)
  : (Z * Z) * (Z * Z) :=
  match selectedSpielMap with
  | None => ((0, 0), (1, 1))%Z
  | Some m => ((- map_H m, 0), (0, map_W m))%Z
  end.

Section Stands.

Context {num : Type} `{JsNumber num}.

(** [-yCoords[i]]: an index past the end reads [undefined]. *)
Definition neg_at (yCoords : list num) (i : nat) : num :=
  match nth_error yCoords i with
  | Some y => neg y
  | None => NaN
  end.

(** The rectangle of the [else] branch. *)
Definition rectangle (element : SpielMapElement num) : list (num * num) :=
  [ (neg (Y element), X element);
    (neg (Y element), add (X element) (W element));
    (neg (add (Y element) (H element)), add (X element) (W element));
    (neg (add (Y element) (H element)), X element) ].

(** "Convert coordinates from Spiel25 format". *)
Definition standPoints (element : SpielMapElement num) : list (num * num) :=
  if JS.truthy_opt (XCOORDS element) && JS.truthy_opt (YCOORDS element) then
    let xCoords :=
      map Number (JS.split "|" (JS.or_else (XCOORDS element) EmptyString)) in
    let yCoords :=
      map Number (JS.split "|" (JS.or_else (YCOORDS element) EmptyString)) in
    JS.mapi (fun x i => (neg_at yCoords i, x)) xCoords
  else rectangle element.

(** [element.STAND_ID || element.NAME || empty]. *)
Definition standIdOf (element : SpielMapElement num) : string :=
  JS.or_else (STAND_ID element) (JS.or_else (NAME element) EmptyString).

(** [standId.split(".").pop() || standId]. *)
Definition boothNameOf (standId : string) : string :=
  JS.or_else (JS.pop (JS.split "." standId)) standId.

Definition matchingCompaniesOf (companies : list Company.t)
           (boothName : string) : list Company.t :=
  filter (fun company => JS.includes boothName (Company.booths company))
         companies.

(** [matchingCompanies.find((c) => c.website)?.website || empty]. *)
Definition firstWebsite (matchingCompanies : list Company.t) : string :=
  match find (fun c => JS.truthy_opt (Company.website c)) matchingCompanies with
  | Some c => JS.or_else (Company.website c) EmptyString
  | None => EmptyString
  end.

Definition exhibitorOf (companies : list Company.t)
           (element : SpielMapElement num) : Info.t :=
  let standId := standIdOf element in
  let boothName := boothNameOf standId in
  let matchingCompanies := matchingCompaniesOf companies boothName in
  {| Info.stand := standId;
     Info.title :=
       if (0 <? List.length matchingCompanies)%nat
       then JS.join " / " (map Company.name matchingCompanies)
       else JS.or_else (NAME element) "Unknown";
     Info.description :=
       if (0 <? List.length matchingCompanies)%nat
       then JS.join (LF ++ LF)%string
                    (map Company.description matchingCompanies)
       else "No description available";
     Info.logo := None;
     Info.website := firstWebsite matchingCompanies;
     Info.url := firstWebsite matchingCompanies;
     Info.booths :=
       match matchingCompanies with
       | c :: _ => Company.booths c
       | [] => [boothName]
       end;
     Info.all :=
       map (fun c => {| Exhibitor.stand := standId;
                        Exhibitor.title := Company.name c;
                        Exhibitor.description := Company.description c;
                        Exhibitor.website := Company.website c;
                        Exhibitor.booths := Company.booths c |})
           matchingCompanies |}.

(** The callback of [standElements.map(..)]. *)
Definition toMapStand (companies : list Company.t)
           (element : SpielMapElement num) : MapStand num :=
  {| label := standIdOf element;
     points := standPoints element;
     exhibitor := exhibitorOf companies element |}.

(** "Filter for stands only (TYPE 0)". *)
Definition isStandElement (element : SpielMapElement num) : bool :=
  (TYPE element =? 0)%Z
  && (JS.truthy_opt (STAND_ID element) || JS.truthy_opt (NAME element)).

(** The filter after the map: [stand.points.length > 0]. *)
Definition hasPoints (stand : MapStand num) : bool :=
  (0 <? List.length (points stand))%nat.

(** The "Additional booths" line of the popup: shown when the exhibitor
    has more than one booth, listing the booths other than the label. *)
Definition additionalBooths (stand : MapStand num) : option string :=
  if (1 <? List.length (Info.booths (exhibitor stand)))%nat
  then Some (JS.join ", "
               (filter (fun b => negb (String.eqb b (label stand)))
                       (Info.booths (exhibitor stand))))
  else None.

Definition mapStands (selectedSpielMap : option SpielMapInfo)
           (mapElements : list (SpielMapElement num))
           (companies : list Company.t) : list (MapStand num) :=
  match selectedSpielMap with
  | None => []
  | Some _ =>
      let standElements := filter isStandElement mapElements in
      filter hasPoints (map (toMapStand companies) standElements)
  end.

End Stands.

End MapView.

(** ** The print zoom of [EasyPrintControl] *)
Module Print.

(** "Hall-specific zoom levels for optimal printing". *)
Definition hallZoomLevels : list (string * Q) :=
  [ ("1", -1.65); ("2", -1.65); ("3", -2.75); ("4", -2); ("5", -2.25);
    ("6", -1.75); ("7", -2); ("GA", -2.75); ("FG1", -1.75); ("FG2", -2);
    ("FG3", -1) ]%Q.

(** What reading a property of the table object gives: a level of the
    table, or a member every object inherits from [Object.prototype] (a
    function, or the prototype itself for [__proto__]). *)
Inductive value : Type :=
| Level (z : Q)
| Inherited (name : string).

(** The property names of [Object.prototype]. *)
Definition objectPrototype : list string :=
  [ "constructor"; "__defineGetter__"; "__defineSetter__"; "hasOwnProperty";
    "__lookupGetter__"; "__lookupSetter__"; "isPrototypeOf";
    "propertyIsEnumerable"; "toString"; "valueOf"; "__proto__";
    "toLocaleString" ].

(** The own entry of the table under a key. *)
Fixpoint lookup (hallId : string) (table : list (string * Q)) : option Q :=
  match table with
  | [] => None
  | (k, z) :: rest => if String.eqb k hallId then Some z else lookup hallId rest
  end.

(** [hallZoomLevels[hallId]]: the own entry, else the inherited member of
    that name, else [undefined]. *)
Definition getProperty (hallId : string) (table : list (string * Q))
  : option value :=
  match lookup hallId table with
  | Some z => Some (Level z)
  | None =>
      if JS.includes hallId objectPrototype then Some (Inherited hallId)
      else None
  end.

(** Truthiness: [undefined] and the number zero are falsy; functions and
    objects are truthy. *)
Definition truthy_value (v : option value) : bool :=
  match v with
  | Some (Level z) => negb (Qeq_bool z 0)
  | Some (Inherited _) => true
  | None => false
  end.

(** [customZoom !== undefined ? customZoom
      : (hallId ? hallZoomLevels[hallId] : -2) || -2]. *)
Definition printZoom (customZoom : option Q) (hallId : option string)
  : value :=
  match customZoom with
  | Some z => Level z
  | None =>
      let level := if JS.truthy_opt hallId
                   then getProperty (JS.template hallId) hallZoomLevels
                   else Some (Level (-2)%Q) in
      match level with
      | Some v => if truthy_value level then v else Level (-2)%Q
      | None => Level (-2)%Q
      end
  end.

End Print.

(** ** Integer-valued numbers

    The instance of [MapView.JsNumber] for map data whose coordinates are
    integers (pixels): [Number] reads an optionally signed decimal integer,
    surrounded by optional white space, and the blank string as zero.
    Fractions, exponents and radix prefixes are outside this instance and
    read as [NotANumber] here; nothing stated for every [JsNumber] depends
    on it. *)
Module IntNumbers.

Inductive jsint : Type :=
| NotANumber
| Int (z : Z).

Definition is_digit (c : ascii) : bool :=
  let n := nat_of_ascii c in ((48 <=? n) && (n <=? 57))%nat.

Fixpoint digits (s : string) (acc : Z) : option Z :=
  match s with
  | EmptyString => Some acc
  | String c t =>
      if is_digit c
      then digits t (10 * acc + Z.of_nat (nat_of_ascii c - 48))%Z
      else None
  end.

Definition unsigned (s : string) : option Z :=
  match s with
  | EmptyString => None
  | _ => digits s 0%Z
  end.

Definition of_unsigned (sign : Z) (s : string) : jsint :=
  match unsigned s with
  | Some z => Int (sign * z)
  | None => NotANumber
  end.

Definition Number (s : string) : jsint :=
  match JS.trim s with
  | EmptyString => Int 0
  | String c t as whole =>
      if Ascii.eqb c "-" then of_unsigned (-1) t
      else if Ascii.eqb c "+" then of_unsigned 1 t
      else of_unsigned 1 whole
  end.

Definition neg (a : jsint) : jsint :=
  match a with
  | Int z => Int (- z)
  | NotANumber => NotANumber
  end.

Definition add (a b : jsint) : jsint :=
  match a, b with
  | Int x, Int y => Int (x + y)
  | _, _ => NotANumber
  end.

#[global] Instance jsint_number : MapView.JsNumber jsint := {
  MapView.NaN := NotANumber;
  MapView.neg := neg;
  MapView.add := add;
  MapView.Number := Number
}.

(** An element record with the fields the stand conversion reads. *)
Definition element (x y w h : Z) (xcoords ycoords : option string)
           (type : Z) (stand_id name : option string)
  : MapView.SpielMapElement jsint :=
  {| MapView.ID := "e"; MapView.KARTEN_ID := "1";
     MapView.X := Int x; MapView.Y := Int y;
     MapView.W := Int w; MapView.H := Int h;
     MapView.XCOORDS := xcoords; MapView.YCOORDS := ycoords;
     MapView.TYPE := type;
     MapView.STAND_ID := stand_id; MapView.NAME := name |}.

End IntNumbers.

(** ** A reversible codec

    An instance of the codec interface: the encoder puts one marker
    character in front of the text; the decoder answers [null] on text
    without the marker and throws on text that starts with [!]. *)
Module MarkerCodec.

Definition compress (s : string) : string := String "Q" s.

Definition decompress (e : string) : outcome (option string) :=
  match e with
  | EmptyString => Returns None
  | String c r =>
      if Ascii.eqb c "Q" then Returns (Some r)
      else if Ascii.eqb c "!" then Throws
      else Returns None
  end.

(** The state of a first visit: nothing stored, no fragment. *)
Definition fresh : Favorites.State :=
  Favorites.mkState None [] [] EmptyString [] EmptyString [].

(** A visit with one saved list, active and in agreement everywhere. *)
Definition visiting (name : string) (favs : list string) : Favorites.State :=
  Favorites.mkState (Some name) favs [name] EmptyString
    [(("favorites:" ++ name)%string, favs)]
    (Favorites.listHash compress name favs) [].

(** A first visit of a browser that still holds the single-list format. *)
Definition returning (legacy : list string) : Favorites.State :=
  Favorites.mkState None [] [] EmptyString [("favorites", legacy)]
    EmptyString [].

(** A visit with two saved lists, the first of them active. *)
Definition twoLists : Favorites.State :=
  Favorites.mkState (Some "a") ["A"] ["a"; "b"] EmptyString
    [("favorites:a", ["A"]); ("favorites:b", ["B1"; "B2"])]
    (Favorites.listHash compress "a" ["A"]) [].

(** A visit to the bare address by a browser that holds two lists. *)
Definition revisiting : Favorites.State :=
  Favorites.mkState None [] [] EmptyString
    [("theme", ["dark"]); ("favorites:a", ["A"]);
     ("favorites:b", ["B1"; "B2"])]
    EmptyString [].

(** A first visit with a legacy array, in a browser that already holds a
    list under the first name the generator can draw. *)
Definition colliding : Favorites.State :=
  Favorites.mkState None [] [] EmptyString
    [("favorites", ["X1"]); ("favorites:brave-otter", ["mine"])]
    EmptyString [].

(** The no-break space U+00A0. *)
Definition NBSP : string :=
  String (ascii_of_nat 194) (String (ascii_of_nat 160) EmptyString).

(** A visit that opens a shared link. *)
Definition shared (frag : string) : Favorites.State :=
  Favorites.mkState None [] [] EmptyString [] frag [].

Definition step := Favorites.step compress decompress.

End MarkerCodec.

(** ** Reference descriptions used by the statements *)
Module Reference.

Fixpoint has_dot (s : string) : bool :=
  match s with
  | EmptyString => false
  | String c t => Ascii.eqb c "." || has_dot t
  end.

(** The substring after the last dot; the whole string when it has none. *)
Fixpoint afterLastDot (s : string) : string :=
  match s with
  | EmptyString => EmptyString
  | String c t =>
      if has_dot t then afterLastDot t
      else if Ascii.eqb c "." then t else s
  end.

(** The first non-empty website of a list of companies, else empty. *)
Definition firstNonEmptyWebsite (cs : list MapView.Company.t) : string :=
  hd EmptyString
     (filter JS.truthy
        (map (fun c => JS.or_else (MapView.Company.website c) EmptyString) cs)).

(** A coordinate list is present when the field holds a non-empty string. *)
Definition present (o : option string) : Prop := JS.truthy_opt o = true.

(** The tokens of a pipe-delimited list, read as numbers. *)
Definition tokens {num} `{MapView.JsNumber num} (o : option string)
  : list num :=
  map MapView.Number (JS.split "|" (JS.or_else o EmptyString)).

(** The parameters [loadInitialList] reads from the fragment. *)
Definition paramsOf (s : Favorites.State) : list (string * string) :=
  Url.URLSearchParams ("?" ++ Url.fragment_text (Favorites.fragment s))%string.

(** A (lat, lng) point lies in the box spanned by two corners. *)
Definition inside (box : (Z * Z) * (Z * Z)) (p : Z * Z) : Prop :=
  (Z.min (fst (fst box)) (fst (snd box)) <= fst p
   <= Z.max (fst (fst box)) (fst (snd box)))%Z
  /\ (Z.min (snd (fst box)) (snd (snd box)) <= snd p
      <= Z.max (snd (fst box)) (snd (snd box)))%Z.

(** The text starts with a white-space character. *)
Definition leading_space (t : string) : bool :=
  match t with
  | EmptyString => false
  | String c1 t1 =>
      JS.is_space c1
      || match t1 with
         | EmptyString => false
         | String c2 t2 =>
             JS.is_space2 c1 c2
             || match t2 with
                | EmptyString => false
                | String c3 _ => JS.is_space3 c1 c2 c3
                end
         end
  end.

(** Every character of a string passes a test. *)
Fixpoint all_chars (p : ascii -> bool) (s : string) : bool :=
  match s with
  | EmptyString => true
  | String c t => p c && all_chars p t
  end.

Definition without (sep : ascii) (s : string) : bool :=
  all_chars (fun c => negb (Ascii.eqb c sep)) s.

(** A list name that the fragment carries unchanged: none of the
    characters the query-string syntax gives a meaning to. *)
Definition url_safe (name : string) : bool :=
  without "&" name && without "+" name && without "%" name.

(** A label that survives the comma-joined encoding: non-empty, without a
    comma and without white space at either end. *)
Definition clean_label (l : string) : bool :=
  JS.truthy l && without "," l && String.eqb (JS.trim l) l.

(** A text that is read back unchanged as a parameter value after the
    browser has taken it into the fragment: [url_safe], and without tab,
    line feed and carriage return, which the hash setter drops. *)
Definition fragment_safe (t : string) : bool :=
  url_safe t && all_chars (fun c => negb (Url.tab_or_newline c)) t.

(** The encoded text passes through the fragment, as the browser holds it
    and as the parameter parser reads it, and decodes to [text]. *)
Definition survives_fragment (compress : string -> string)
           (decompress : string -> outcome (option string))
           (text : string) : Prop :=
  without "&" (compress text) = true
  /\ JS.truthy (Url.form_decode (Url.fragment_text (compress text))) = true
  /\ decompress (Url.form_decode (Url.fragment_text (compress text)))
     = Returns (Some text).

(** The list names shown are the lists in storage. *)
Definition registry_synced (s : Favorites.State) : Prop :=
  Favorites.favoriteLists s = Favorites.savedLists (Favorites.localStorage s).

(** A list is active when [listKey] is a non-empty string. *)
Definition active (s : Favorites.State) (name : string) : Prop :=
  Favorites.listKey s = Some name /\ name <> EmptyString.

(** Storage and fragment agree with the in-memory active list. *)
Definition synced (compress : string -> string) (s : Favorites.State) : Prop :=
  forall name, active s name ->
    Storage.getItem ("favorites:" ++ name)%string (Favorites.localStorage s)
      = Some (Favorites.favorites s)
    /\ Favorites.fragment s
       = ("list=" ++ name ++ "&favs="
            ++ compress (JS.join "," (Favorites.favorites s)))%string.

End Reference.

(** * Properties *)

(** ** Storage and string lemmas *)
Module StorageFacts.
Import Storage.

Lemma getItem_setItem_same (k : string) (v : list string) (st : t) :
  getItem k (setItem k v st) = Some v.
Proof.
  induction st as [|[k' v'] rest IH]; simpl.
  - now rewrite String.eqb_refl.
  - destruct (String.eqb k' k) eqn:E; simpl.
    + now rewrite String.eqb_refl.
    + now rewrite E.
Qed.

Lemma getItem_setItem_other (k k' : string) (v : list string) (st : t) :
  k <> k' -> getItem k (setItem k' v st) = getItem k st.
Proof.
  intros Hne.
  induction st as [|[k0 v0] rest IH]; simpl.
  - destruct (String.eqb k' k) eqn:E; [|reflexivity].
    apply String.eqb_eq in E. congruence.
  - destruct (String.eqb k0 k') eqn:E; simpl.
    + apply String.eqb_eq in E. subst k0.
      destruct (String.eqb k' k) eqn:E'; [|reflexivity].
      apply String.eqb_eq in E'. congruence.
    + now rewrite IH.
Qed.

Lemma getItem_removeItem_same (k : string) (st : t) :
  getItem k (removeItem k st) = None.
Proof.
  induction st as [|[k0 v0] rest IH]; simpl; [reflexivity|].
  destruct (String.eqb k0 k) eqn:E; simpl; [assumption|].
  now rewrite E.
Qed.

Lemma getItem_removeItem_other (k k' : string) (st : t) :
  k <> k' -> getItem k (removeItem k' st) = getItem k st.
Proof.
  intros Hne.
  induction st as [|[k0 v0] rest IH]; simpl; [reflexivity|].
  destruct (String.eqb k0 k') eqn:E; simpl.
  - apply String.eqb_eq in E. subst k0.
    destruct (String.eqb k' k) eqn:E'; [|assumption].
    apply String.eqb_eq in E'. congruence.
  - now rewrite IH.
Qed.

Lemma append_inj_l (p a b : string) :
  (p ++ a)%string = (p ++ b)%string -> a = b.
Proof.
  induction p as [|c p IH]; simpl; intros Heq; [assumption|].
  injection Heq as Heq. auto.
Qed.

Lemma prefix_append (p t : string) : String.prefix p (p ++ t)%string = true.
Proof.
  induction p as [|c p IH]; simpl.
  - now destruct t.
  - destruct (ascii_dec c c); [assumption|congruence].
Qed.

Lemma prefix_split (p s : string) :
  String.prefix p s = true -> exists t, s = (p ++ t)%string.
Proof.
  revert s. induction p as [|c p IH]; intros s Hp.
  - now exists s.
  - destruct s as [|d s]; simpl in Hp; [discriminate|].
    destruct (ascii_dec c d) as [->|]; [|discriminate].
    destruct (IH s Hp) as [t ->]. now exists t.
Qed.

Lemma substring_all (s : string) : String.substring 0 (String.length s) s = s.
Proof. induction s as [|c s IH]; simpl; [reflexivity|now rewrite IH]. Qed.

Lemma substring_after (p t : string) :
  String.substring (String.length p)
    (String.length (p ++ t)%string - String.length p) (p ++ t)%string = t.
Proof.
  induction p as [|c p IH]; simpl.
  - rewrite Nat.sub_0_r. apply substring_all.
  - assumption.
Qed.

Lemma remove_first_prefix (p t : string) :
  JS.remove_first p (p ++ t)%string = t.
Proof.
  assert (Hunfold : forall s, JS.remove_first p s =
            if String.prefix p s
            then String.substring (String.length p)
                   (String.length s - String.length p) s
            else match s with
                 | EmptyString => EmptyString
                 | String c rest => String c (JS.remove_first p rest)
                 end) by (intros s; destruct s; reflexivity).
  rewrite Hunfold, prefix_append. apply substring_after.
Qed.

Lemma getItem_In_keys (k : string) (v : list string) (st : t) :
  getItem k st = Some v -> In k (keys st).
Proof.
  induction st as [|[k0 v0] rest IH]; simpl; [discriminate|].
  destruct (String.eqb k0 k) eqn:E.
  - apply String.eqb_eq in E. now left.
  - intros Hg. right. now apply IH.
Qed.

Lemma keys_setItem (k k' : string) (v : list string) (st : t) :
  In k (keys (setItem k' v st)) -> k = k' \/ In k (keys st).
Proof.
  induction st as [|[k0 v0] rest IH]; simpl.
  - intros [<-|[]]. now left.
  - destruct (String.eqb k0 k') eqn:E; simpl.
    + apply String.eqb_eq in E. subst k0. tauto.
    + intros [->|Hin]; [tauto|]. destruct (IH Hin); tauto.
Qed.

Lemma keys_setItem_keeps (k k' : string) (v : list string) (st : t) :
  In k (keys st) -> In k (keys (setItem k' v st)).
Proof.
  induction st as [|[k0 v0] rest IH]; simpl; [tauto|].
  destruct (String.eqb k0 k') eqn:E; simpl.
  - apply String.eqb_eq in E. subst k0. tauto.
  - intros [->|Hin]; [now left|right; now apply IH].
Qed.

Lemma keys_setItem_new (k : string) (v : list string) (st : t) :
  In k (keys (setItem k v st)).
Proof.
  induction st as [|[k0 v0] rest IH]; simpl; [now left|].
  destruct (String.eqb k0 k) eqn:E; simpl; [now left|now right].
Qed.

Lemma setItem_same_value (k : string) (v : list string) (st : t) :
  getItem k st = Some v -> setItem k v st = st.
Proof.
  induction st as [|[k0 v0] rest IH]; simpl; [discriminate|].
  destruct (String.eqb k0 k) eqn:E.
  - apply String.eqb_eq in E. subst k0. intros Hv. now injection Hv as ->.
  - intros Hg. now rewrite IH.
Qed.

End StorageFacts.

(** ** The favourites store *)
Module FavoritesFacts.
Import Favorites StorageFacts Reference.

(** *** The updater of the toggle *)

Lemma includes_In (x : string) (l : list string) :
  JS.includes x l = true <-> In x l.
Proof.
  unfold JS.includes. rewrite existsb_exists. split.
  - intros [y [Hy E]]. apply String.eqb_eq in E. now subst.
  - intros Hx. exists x. split; [assumption|apply String.eqb_refl].
Qed.

Lemma includes_removed (label : string) (l : list string) :
  JS.includes label (filter (fun f => negb (String.eqb f label)) l) = false.
Proof.
  destruct (JS.includes label _) eqn:E; [|reflexivity].
  apply includes_In, filter_In in E. destruct E as [_ E].
  now rewrite String.eqb_refl in E.
Qed.

Lemma filter_absent (label : string) (l : list string) :
  JS.includes label l = false ->
  filter (fun f => negb (String.eqb f label)) l = l.
Proof.
  induction l as [|x l IH]; simpl; [reflexivity|].
  rewrite (String.eqb_sym label x).
  destruct (String.eqb x label); simpl; [discriminate|].
  intros Hl. now rewrite IH.
Qed.

Lemma filter_present_shorter (label : string) (l : list string) :
  JS.includes label l = true ->
  List.length (filter (fun f => negb (String.eqb f label)) l) < List.length l.
Proof.
  induction l as [|x l IH]; simpl; [discriminate|].
  rewrite (String.eqb_sym label x).
  destruct (String.eqb x label); simpl.
  - intros _.
    pose proof (filter_length_le (fun f => negb (String.eqb f label)) l). lia.
  - intros Hl. specialize (IH Hl). lia.
Qed.

Lemma toggled_twice (label : string) (prev : list string) :
  toggled label (toggled label prev)
  = if JS.includes label prev
    then filter (fun f => negb (String.eqb f label)) prev ++ [label]
    else prev.
Proof.
  unfold toggled at 2.
  destruct (JS.includes label prev) eqn:E; unfold toggled.
  - now rewrite includes_removed.
  - assert (Hin : JS.includes label (prev ++ [label]) = true).
    { apply includes_In, in_or_app. right. now left. }
    rewrite Hin, filter_app, (filter_absent _ _ E). simpl.
    rewrite String.eqb_refl. simpl. apply app_nil_r.
Qed.

Lemma toggled_changes (label : string) (prev : list string) :
  toggled label prev <> prev.
Proof.
  unfold toggled. destruct (JS.includes label prev) eqn:E; intros Heq.
  - pose proof (filter_present_shorter _ _ E) as Hlt.
    rewrite Heq in Hlt. lia.
  - apply (f_equal (@List.length string)) in Heq.
    rewrite length_app in Heq. simpl in Heq. lia.
Qed.

(** *** The list registry *)

Lemma savedLists_spec (k : string) (st : Storage.t) :
  In k (savedLists st) <-> In ("favorites:" ++ k)%string (Storage.keys st).
Proof.
  split.
  - unfold savedLists. rewrite in_map_iff.
    intros [key' [Hk Hin]]. apply filter_In in Hin. destruct Hin as [Hin Hp].
    destruct (prefix_split _ _ Hp) as [t ->].
    rewrite remove_first_prefix in Hk. now subst t.
  - intros Hin. unfold savedLists. apply in_map_iff.
    exists ("favorites:" ++ k)%string. split.
    + apply remove_first_prefix.
    + apply filter_In. split; [assumption|].
      apply (prefix_append "favorites:").
Qed.

(** X1. The key scan lists exactly the names stored under the prefix
    [favorites:]; no other key contributes a name, and the legacy key
    [favorites] never does. *)
Theorem registry_lists_prefixed_keys (st : Storage.t) :
  (forall k, In k (savedLists st)
             <-> In ("favorites:" ++ k)%string (Storage.keys st))
  /\ savedLists (Storage.removeItem "favorites" st) = savedLists st.
Proof.
  split; [intros k; apply savedLists_spec|].
  unfold savedLists, Storage.keys, Storage.removeItem.
  induction st as [|[k0 v0] rest IH]; simpl; [reflexivity|].
  destruct (String.eqb k0 "favorites") eqn:E; simpl.
  - apply String.eqb_eq in E. subst k0. exact IH.
  - destruct (JS.startsWith "favorites:" k0); simpl; now rewrite IH.
Qed.

Lemma toggled_includes_self (label : string) (prev : list string) :
  JS.includes label (toggled label prev) = negb (JS.includes label prev).
Proof.
  unfold toggled. destruct (JS.includes label prev) eqn:E; simpl.
  - apply includes_removed.
  - apply includes_In, in_or_app. right. now left.
Qed.

Lemma toggled_includes_other (label x : string) (prev : list string) :
  x <> label ->
  JS.includes x (toggled label prev) = JS.includes x prev.
Proof.
  intros Hne. unfold toggled.
  destruct (JS.includes x prev) eqn:Ex.
  - apply includes_In in Ex. apply includes_In.
    destruct (JS.includes label prev).
    + apply filter_In. split; [assumption|].
      destruct (String.eqb x label) eqn:E; [|reflexivity].
      apply String.eqb_eq in E. contradiction.
    + apply in_or_app. now left.
  - match goal with |- ?lhs = false => destruct lhs eqn:E end; [|reflexivity].
    apply includes_In in E.
    assert (Hin : In x prev).
    { destruct (JS.includes label prev).
      - now apply filter_In in E.
      - apply in_app_or in E. destruct E as [E|[E|[]]]; [assumption|].
        now subst. }
    apply includes_In in Hin. congruence.
Qed.

Lemma toggled_keeps_others (label : string) (prev : list string) :
  filter (fun f => negb (String.eqb f label)) (toggled label prev)
  = filter (fun f => negb (String.eqb f label)) prev.
Proof.
  unfold toggled. destruct (JS.includes label prev).
  - induction prev as [|x prev IH]; simpl; [reflexivity|].
    destruct (String.eqb x label) eqn:E; simpl; [assumption|].
    rewrite E. simpl. now rewrite IH.
  - rewrite filter_app. simpl. rewrite String.eqb_refl. simpl.
    apply app_nil_r.
Qed.

Lemma toggled_NoDup (label : string) (prev : list string) :
  NoDup prev -> NoDup (toggled label prev).
Proof.
  intros Hnd. unfold toggled. destruct (JS.includes label prev) eqn:E.
  - now apply NoDup_filter.
  - apply NoDup_app; [assumption|repeat constructor; intros []|].
    intros x Hx [<-|[]]. apply includes_In in Hx. congruence.
Qed.

Section Codec.

Variable compress : string -> string.
Variable decompress : string -> outcome (option string).

Local Abbreviation step := (Favorites.step compress decompress).
Local Abbreviation handler := (Favorites.handler compress decompress).

(** *** What the two effects leave behind *)

Lemma setHash_listHash (k : string) (favs : list string) (s : State) :
  fragment (setHash (listHash compress k favs) s) = listHash compress k favs.
Proof. reflexivity. Qed.

Lemma effects_favorites (s : State) :
  favorites (updateLists (syncEffect compress s)) = favorites s.
Proof. unfold syncEffect. now destruct (JS.truthy_opt (listKey s)). Qed.

Lemma effects_listKey (s : State) :
  listKey (updateLists (syncEffect compress s)) = listKey s.
Proof. unfold syncEffect. now destruct (JS.truthy_opt (listKey s)). Qed.

Lemma active_truthy (s : State) (name : string) :
  active s name -> JS.truthy_opt (listKey s) = true.
Proof.
  intros [Hk Hne]. rewrite Hk. simpl. destruct name; [congruence|reflexivity].
Qed.

Lemma effects_establish_sync (s : State) :
  synced compress (updateLists (syncEffect compress s)).
Proof.
  intros name Hact.
  assert (Hact' : active s name).
  { destruct Hact as [Hk Hne]. rewrite effects_listKey in Hk. now split. }
  pose proof (active_truthy _ _ Hact') as Ht.
  destruct Hact' as [Hk _].
  unfold syncEffect. rewrite Ht, Hk. simpl. split.
  - apply getItem_setItem_same.
  - reflexivity.
Qed.

Lemma step_toggle_favorites (label : string) (s : State) :
  favorites (step (Toggle label) s) = toggled label (favorites s).
Proof.
  unfold Favorites.step. cbn [effects_due]. now rewrite effects_favorites.
Qed.

(** *** The synchronisation invariant *)

Lemma delete_inactive_keeps_sync (key : string) (s : State) :
  is_active key s = false ->
  synced compress s ->
  synced compress (deleteList compress key true s).
Proof.
  intros Hina Hs name [Hk Hne].
  unfold deleteList in *. rewrite Hina in *. simpl in *.
  destruct (Hs name (conj Hk Hne)) as [Hst Hfr]. split; [|assumption].
  rewrite getItem_removeItem_other; [assumption|].
  intros Heq. apply (append_inj_l "favorites:") in Heq. subst key.
  unfold is_active in Hina. rewrite Hk, String.eqb_refl in Hina. discriminate.
Qed.

Lemma step_keeps_synced (a : Action) (s : State) :
  effects_due a s = true \/ synced compress s ->
  synced compress (step a s).
Proof.
  intros Hpre. unfold Favorites.step.
  destruct (effects_due a s) eqn:Hdue; [apply effects_establish_sync|].
  destruct Hpre as [Hpre|Hs]; [discriminate|].
  destruct a as [label|key|key confirmed|v| |r1 r2]; simpl in Hdue;
    try discriminate.
  - destruct confirmed; simpl in Hdue.
    + now apply delete_inactive_keeps_sync.
    + exact Hs.
  - exact Hs.
  - unfold Favorites.handler, createList. rewrite Hdue. exact Hs.
Qed.

(** C9. Toggling while no list is active is carried out all the same: the
    in-memory sequence changes, it is stored under the key
    [favorites:null], and the fragment stays as it was. *)
Theorem toggle_without_list (label : string) (s : State) :
  listKey s = None ->
  listKey (step (Toggle label) s) = None
  /\ favorites (step (Toggle label) s) = toggled label (favorites s)
  /\ favorites (step (Toggle label) s) <> favorites s
  /\ Storage.getItem "favorites:null" (localStorage (step (Toggle label) s))
     = Some (favorites (step (Toggle label) s))
  /\ fragment (step (Toggle label) s) = fragment s.
Proof.
  intros Hk.
  assert (Hstep : step (Toggle label) s = updateLists (toggleFavorite label s)).
  { unfold Favorites.step, syncEffect. cbn [effects_due Favorites.handler].
    unfold toggleFavorite at 1. cbn [listKey setFavorites withStorage].
    now rewrite Hk. }
  rewrite Hstep. unfold updateLists, toggleFavorite. cbn. rewrite Hk.
  split; [reflexivity|]. split; [reflexivity|].
  split; [apply toggled_changes|].
  split; [apply (getItem_setItem_same "favorites:null")|reflexivity].
Qed.

(** C2, as amended. Toggling the same label twice gives back the list when
    the label was not in it; when it was, every occurrence is removed and
    the label is appended once at the end. The labels listed are the same
    in both cases. *)
Theorem toggle_twice (label : string) (s : State) :
  favorites (step (Toggle label) (step (Toggle label) s))
  = (if JS.includes label (favorites s)
     then filter (fun f => negb (String.eqb f label)) (favorites s) ++ [label]
     else favorites s)
  /\ (forall x, In x (favorites (step (Toggle label) (step (Toggle label) s)))
                <-> In x (favorites s)).
Proof.
  rewrite !step_toggle_favorites, toggled_twice.
  split; [reflexivity|].
  intros x. destruct (JS.includes label (favorites s)) eqn:E; [|tauto].
  apply includes_In in E.
  rewrite in_app_iff, filter_In. simpl. split.
  - intros [[Hx _]|[<-|[]]]; assumption.
  - intros Hx. destruct (String.eqb x label) eqn:Ex.
    + apply String.eqb_eq in Ex. subst. right. now left.
    + left. now split.
Qed.

(** The select handler on its own writes the uncompressed join; the sync
    effect of the same commit replaces it with the compressed form. *)
Remark select_fragment_before_and_after_effects (key : string) (s : State) :
  fragment (selectList key s)
  = ("list=" ++ key ++ "&favs="
       ++ JS.join "," (stored key (localStorage s)))%string
  /\ (key <> EmptyString ->
      fragment (step (Select key) s)
      = listHash compress key (stored key (localStorage s))).
Proof.
  split; [reflexivity|]. intros Hne.
  unfold Favorites.step, syncEffect. cbn [effects_due Favorites.handler].
  unfold selectList. cbn. destruct key; [congruence|reflexivity].
Qed.

(** *** Start-up resolution *)

(** The text [loadInitialList] parses is the fragment. *)
Lemma hash_text (s : State) :
  (if JS.startsWith "#" (location_hash s)
   then String.substring 1 (String.length (location_hash s) - 1)
                         (location_hash s)
   else location_hash s) = Url.fragment_text (fragment s).
Proof.
  unfold location_hash.
  destruct (Url.fragment_text (fragment s)) as [|c f]; [reflexivity|].
  change (String.substring 0 (String.length (String c f) - 0) (String c f)
          = String c f).
  rewrite Nat.sub_0_r. apply substring_all.
Qed.

Lemma loadInitialList_unfold (r1 r2 : nat) (s : State) :
  loadInitialList compress decompress r1 r2 s
  = if JS.truthy_opt (Url.get "list" (paramsOf s)) then
      setFavorites (fst (decodeFavs decompress (Url.get "favs" (paramsOf s)) s))
        (setListKey (Url.get "list" (paramsOf s))
           (snd (decodeFavs decompress (Url.get "favs" (paramsOf s)) s)))
    else
      let legacy := match Storage.getItem "favorites" (localStorage s) with
                    | Some l => l
                    | None => []
                    end in
      if (0 <? List.length legacy)%nat then
        let newKey := generateRandomListName r1 r2 in
        setHash (listHash compress newKey legacy)
          (setFavorites legacy
             (setListKey (Some newKey)
                (withStorage (Storage.removeItem "favorites")
                   (withStorage
                      (Storage.setItem ("favorites:" ++ newKey)%string legacy)
                      s))))
      else
        match savedLists (localStorage s) with
        | firstKey :: _ =>
            setFavorites (stored firstKey (localStorage s))
                         (setListKey (Some firstKey) s)
        | [] => setFavorites [] (setListKey None s)
        end.
Proof.
  unfold loadInitialList, paramsOf. rewrite hash_text.
  destruct (JS.truthy_opt _); [|reflexivity].
  now destruct (decodeFavs _ _ _).
Qed.

(** C5, as amended. Decoding the [favs] parameter always yields a list,
    whatever the decoder does. An absent or empty parameter gives the empty
    list and logs nothing. When the decoder throws, the list is empty and
    one warning is added to the console; when it answers [null] or the
    empty text the list is empty and nothing is logged; when it answers any
    other text the list is the trimmed non-empty comma-separated pieces of
    that text and nothing is logged. Start-up with a list name in the
    fragment adopts that name with the decoded list. *)
Theorem favs_decoding_never_throws (favEncoded : option string) (s : State) :
  (JS.truthy_opt favEncoded = false ->
   fst (decodeFavs decompress favEncoded s) = []
   /\ console (snd (decodeFavs decompress favEncoded s)) = console s)
  /\ (forall enc, favEncoded = Some enc -> JS.truthy enc = true ->
      match decompress enc with
      | Throws =>
          fst (decodeFavs decompress favEncoded s) = []
          /\ console (snd (decodeFavs decompress favEncoded s))
             = console s ++ ["Error decoding favorites from URL:"]
      | Returns None =>
          fst (decodeFavs decompress favEncoded s) = []
          /\ console (snd (decodeFavs decompress favEncoded s)) = console s
      | Returns (Some decoded) =>
          fst (decodeFavs decompress favEncoded s)
          = (if JS.truthy decoded
             then filter JS.truthy (map JS.trim (JS.split "," decoded))
             else [])
          /\ console (snd (decodeFavs decompress favEncoded s)) = console s
      end)
  /\ (forall r1 r2,
      JS.truthy_opt (Url.get "list" (paramsOf s)) = true ->
      favEncoded = Url.get "favs" (paramsOf s) ->
      listKey (loadInitialList compress decompress r1 r2 s)
      = Url.get "list" (paramsOf s)
      /\ favorites (loadInitialList compress decompress r1 r2 s)
         = fst (decodeFavs decompress favEncoded s)
      /\ console (loadInitialList compress decompress r1 r2 s)
         = console (snd (decodeFavs decompress favEncoded s))).
Proof.
  split; [|split].
  - unfold decodeFavs, favsFromUrl_try.
    destruct favEncoded as [enc|]; simpl; [|now split].
    intros ->. now split.
  - intros enc -> Henc. unfold decodeFavs, favsFromUrl_try. rewrite Henc.
    destruct (decompress enc) as [[decoded|]|]; try (split; reflexivity).
    destruct (JS.truthy decoded); split; reflexivity.
  - intros r1 r2 Hlist ->. rewrite loadInitialList_unfold, Hlist.
    repeat split.
Qed.

Lemma randomName_truthy (r1 r2 : nat) :
  JS.truthy (generateRandomListName r1 r2) = true.
Proof.
  unfold generateRandomListName.
  now destruct (nth r1 adjectives "undefined").
Qed.

Lemma randomName_pattern (r1 r2 : nat) :
  r1 < 8 -> r2 < 8 ->
  exists adjective animal,
    In adjective adjectives /\ In animal animals
    /\ generateRandomListName r1 r2 = (adjective ++ "-" ++ animal)%string.
Proof.
  intros H1 H2.
  exists (nth r1 adjectives "undefined"), (nth r2 animals "undefined").
  repeat split; apply nth_In; assumption.
Qed.

(** *** Deleting a list *)

Lemma savedLists_In (k : string) (st : Storage.t) :
  In k (savedLists st) -> In ("favorites:" ++ k)%string (Storage.keys st).
Proof.
  unfold savedLists. rewrite in_map_iff.
  intros [key' [Hk Hin]]. apply filter_In in Hin. destruct Hin as [Hin Hp].
  destruct (prefix_split _ _ Hp) as [t ->].
  rewrite remove_first_prefix in Hk. now subst t.
Qed.

Lemma keys_removeItem (k key : string) (st : Storage.t) :
  In k (Storage.keys (Storage.removeItem key st)) -> k <> key.
Proof.
  unfold Storage.keys, Storage.removeItem. rewrite in_map_iff.
  intros [[k0 v0] [Hk Hin]]. apply filter_In in Hin. destruct Hin as [_ Hne].
  simpl in *. subst k0. intros ->. now rewrite String.eqb_refl in Hne.
Qed.

Lemma remaining_differs (k key : string) (st : Storage.t) :
  In k (savedLists (Storage.removeItem ("favorites:" ++ key)%string st)) ->
  k <> key.
Proof.
  intros Hin Heq. apply savedLists_In, keys_removeItem in Hin. now subst k.
Qed.

Lemma is_active_key (key : string) (s : State) :
  is_active key s = true <-> listKey s = Some key.
Proof.
  unfold is_active. destruct (listKey s) as [k|]; split; try discriminate.
  - intros E. apply String.eqb_eq in E. now subst.
  - intros E. injection E as ->. apply String.eqb_refl.
Qed.

(** C7, as amended. A confirmed deletion removes the persisted entry. If
    the deleted list was the active one and the key scan of what remains
    starts with a non-empty name, that list becomes active with its
    persisted favourites and the fragment is rewritten for it; if it was
    the active one and nothing remains, no list is active, the favourites
    are empty and the fragment is empty. Deleting a list that is not the
    active one leaves the active name, the favourites and the fragment as
    they were. *)
Theorem delete_list (key : string) (s : State) :
  Storage.getItem ("favorites:" ++ key)%string
                  (localStorage (step (Delete key true) s)) = None
  /\ (listKey s = Some key ->
      forall k rest,
        savedLists (Storage.removeItem ("favorites:" ++ key)%string
                                       (localStorage s)) = k :: rest ->
        k <> EmptyString ->
        listKey (step (Delete key true) s) = Some k
        /\ favorites (step (Delete key true) s) = stored k (localStorage s)
        /\ fragment (step (Delete key true) s)
           = listHash compress k (stored k (localStorage s)))
  /\ (listKey s = Some key ->
      savedLists (Storage.removeItem ("favorites:" ++ key)%string
                                     (localStorage s)) = [] ->
      listKey (step (Delete key true) s) = None
      /\ favorites (step (Delete key true) s) = []
      /\ fragment (step (Delete key true) s) = EmptyString)
  /\ (listKey s <> Some key ->
      listKey (step (Delete key true) s) = listKey s
      /\ favorites (step (Delete key true) s) = favorites s
      /\ fragment (step (Delete key true) s) = fragment s).
Proof.
  unfold Favorites.step. cbn [effects_due Favorites.handler andb].
  unfold deleteList. cbn [negb].
  destruct (is_active key s) eqn:Hact.
  - apply is_active_key in Hact.
    cbn [localStorage withStorage].
    destruct (savedLists (Storage.removeItem ("favorites:" ++ key)%string
                                             (localStorage s)))
      as [|k rest] eqn:Hrem.
    + (* nothing remains *)
      unfold syncEffect. cbn.
      split; [apply (getItem_removeItem_same ("favorites:" ++ key)%string)|].
      split; [intros _ k rest Hk; discriminate|].
      split; [now intros _ _|]. intros Hne. contradiction.
    + assert (Hdiff : k <> key).
      { apply (remaining_differs k key (localStorage s)).
        rewrite Hrem. now left. }
      assert (Hkey : ("favorites:" ++ key)%string <> ("favorites:" ++ k)%string).
      { intros Heq. apply (append_inj_l "favorites:") in Heq. congruence. }
      assert (Hstored : stored k (Storage.removeItem
                                    ("favorites:" ++ key)%string
                                    (localStorage s))
                        = stored k (localStorage s)).
      { unfold stored. rewrite getItem_removeItem_other; [reflexivity|].
        intros Heq. apply Hkey. now symmetry. }
      destruct (JS.truthy k) eqn:Ht.
      * unfold syncEffect.
        cbn [listKey setHash setFavorites setListKey withStorage
             setFavoriteLists JS.truthy_opt].
        rewrite Ht.
        cbn [updateLists setFavoriteLists localStorage listKey favorites
             fragment setHash withStorage setFavorites setListKey JS.template].
        rewrite Hstored.
        split.
        { rewrite getItem_setItem_other by exact Hkey.
          apply getItem_removeItem_same. }
        split.
        { intros _ k' rest' Heq _. injection Heq as <- <-. repeat split. }
        split; [intros _ Heq; discriminate|]. intros Hne. contradiction.
      * destruct k; [|discriminate].
        unfold syncEffect. cbn.
        split; [apply (getItem_removeItem_same ("favorites:" ++ key)%string)|].
        split.
        { intros _ k' rest' Heq Hk'. injection Heq as <- <-. congruence. }
        split; [intros _ Heq; discriminate|]. intros Hne. contradiction.
  - assert (Hina : listKey s <> Some key).
    { intros Hk. apply is_active_key in Hk. congruence. }
    cbn [localStorage listKey favorites fragment withStorage setFavoriteLists].
    split; [apply getItem_removeItem_same|].
    split; [intros Hk; contradiction|].
    split; [intros Hk; contradiction|].
    intros _. repeat split.
Qed.

(** *** More on the registry and the toggle *)

Lemma effects_registry (s : State) :
  registry_synced (updateLists (syncEffect compress s)).
Proof. reflexivity. Qed.

(** X2. The list names shown are the lists in storage after every event
    that runs the effects, and stay so over every other event. *)
Theorem registry_follows_storage (a : Action) (s : State) :
  effects_due a s = true \/ registry_synced s ->
  registry_synced (step a s).
Proof.
  intros Hpre. unfold Favorites.step.
  destruct (effects_due a s) eqn:Hdue; [apply effects_registry|].
  destruct Hpre as [Hpre|Hs]; [discriminate|].
  destruct a as [label|key|key confirmed|v| |r1 r2]; simpl in Hdue;
    try discriminate.
  - destruct confirmed; simpl in Hdue; [|exact Hs].
    unfold Favorites.handler, deleteList. rewrite Hdue. reflexivity.
  - exact Hs.
  - unfold Favorites.handler, createList. rewrite Hdue. exact Hs.
Qed.

(** X3. A toggle flips whether the label is a favourite, removes every copy
    of it when it was one, and neither drops, adds nor reorders any other
    label. *)
Theorem toggle_flips_one_label (label : string) (s : State) :
  JS.includes label (favorites (step (Toggle label) s))
  = negb (JS.includes label (favorites s))
  /\ (forall x, x <> label ->
        JS.includes x (favorites (step (Toggle label) s))
        = JS.includes x (favorites s))
  /\ filter (fun f => negb (String.eqb f label))
            (favorites (step (Toggle label) s))
     = filter (fun f => negb (String.eqb f label)) (favorites s).
Proof.
  rewrite step_toggle_favorites. split; [apply toggled_includes_self|].
  split; [|apply toggled_keeps_others].
  intros x Hne. now apply toggled_includes_other.
Qed.

(** X4. A toggle never introduces a duplicate: a duplicate-free list stays
    duplicate-free. *)
Theorem toggle_keeps_labels_distinct (label : string) (s : State) :
  NoDup (favorites s) -> NoDup (favorites (step (Toggle label) s)).
Proof. rewrite step_toggle_favorites. apply toggled_NoDup. Qed.

Lemma step_toggle_storage (label : string) (s : State) :
  localStorage (step (Toggle label) s)
  = Storage.setItem ("favorites:" ++ JS.template (listKey s))%string
      (toggled label (favorites s))
      (if JS.truthy_opt (listKey s)
       then Storage.setItem ("favorites:" ++ JS.template (listKey s))%string
              (toggled label (favorites s)) (localStorage s)
       else localStorage s)
    \/ localStorage (step (Toggle label) s)
       = Storage.setItem ("favorites:" ++ JS.template (listKey s))%string
           (toggled label (favorites s)) (localStorage s).
Proof.
  unfold Favorites.step, syncEffect. cbn [effects_due Favorites.handler].
  unfold toggleFavorite.
  cbn [listKey setFavorites withStorage favorites localStorage].
  destruct (JS.truthy_opt (listKey s)); [left|right]; reflexivity.
Qed.

(** X5. A toggle writes one storage key, [favorites:<listKey>] (the key
    [favorites:null] without a list), with the new sequence; every other
    key, the legacy key and the other lists included, keeps its value. *)
Theorem toggle_writes_one_key (label : string) (s : State) :
  Storage.getItem ("favorites:" ++ JS.template (listKey s))%string
                  (localStorage (step (Toggle label) s))
  = Some (favorites (step (Toggle label) s))
  /\ (forall key,
         key <> ("favorites:" ++ JS.template (listKey s))%string ->
         Storage.getItem key (localStorage (step (Toggle label) s))
         = Storage.getItem key (localStorage s)).
Proof.
  rewrite step_toggle_favorites.
  destruct (step_toggle_storage label s) as [-> | ->]; split.
  - apply getItem_setItem_same.
  - intros key Hne. rewrite getItem_setItem_other by assumption.
    destruct (JS.truthy_opt (listKey s)); [|reflexivity].
    now rewrite getItem_setItem_other.
  - apply getItem_setItem_same.
  - intros key Hne. now rewrite getItem_setItem_other.
Qed.

(** *** Create, select and delete *)

Lemma stored_setItem_same (k : string) (v : list string) (st : Storage.t) :
  stored k (Storage.setItem ("favorites:" ++ k)%string v st) = v.
Proof. unfold stored. now rewrite getItem_setItem_same. Qed.

Lemma stored_setItem_other (k k' : string) (v : list string) (st : Storage.t) :
  k <> k' ->
  stored k (Storage.setItem ("favorites:" ++ k')%string v st) = stored k st.
Proof.
  intros Hne. unfold stored. rewrite getItem_setItem_other; [reflexivity|].
  intros Heq. apply (append_inj_l "favorites:") in Heq. contradiction.
Qed.

Lemma stored_removeItem_other (k k' : string) (st : Storage.t) :
  k <> k' ->
  stored k (Storage.removeItem ("favorites:" ++ k')%string st) = stored k st.
Proof.
  intros Hne. unfold stored. rewrite getItem_removeItem_other; [reflexivity|].
  intros Heq. apply (append_inj_l "favorites:") in Heq. contradiction.
Qed.

Lemma truthy_nonempty (name : string) :
  name <> EmptyString -> JS.truthy name = true.
Proof. destruct name; [congruence|reflexivity]. Qed.

Lemma step_create_accepted (s : State) :
  JS.truthy (JS.trim (newListName s))
  && negb (JS.includes (JS.trim (newListName s)) (favoriteLists s)) = true ->
  step Create s
  = updateLists
      (syncEffect compress
         (setHash ("list=" ++ JS.trim (newListName s))%string
            (setNewListName EmptyString
               (setFavorites []
                  (setListKey (Some (JS.trim (newListName s)))
                     (withStorage
                        (Storage.setItem
                           ("favorites:" ++ JS.trim (newListName s))%string [])
                        s)))))).
Proof.
  intros Hg. unfold Favorites.step. cbn [effects_due Favorites.handler].
  unfold createList. now rewrite Hg.
Qed.

(** X7. Creating never touches a list that exists: with the registry in
    step with storage, every stored list keeps its favourites over a
    create, and a blank name creates nothing at all. *)
Theorem create_never_overwrites (s : State) :
  (registry_synced s ->
   forall k v,
     Storage.getItem ("favorites:" ++ k)%string (localStorage s) = Some v ->
     Storage.getItem ("favorites:" ++ k)%string (localStorage (step Create s))
     = Some v)
  /\ (JS.trim (newListName s) = EmptyString -> step Create s = s).
Proof.
  split.
  - intros Hreg k v Hget.
    destruct (JS.truthy (JS.trim (newListName s))
              && negb (JS.includes (JS.trim (newListName s))
                                   (favoriteLists s))) eqn:Hg.
    + rewrite (step_create_accepted s Hg).
      apply andb_prop in Hg. destruct Hg as [Ht Hnew].
      assert (Hdiff : ("favorites:" ++ k)%string
                      <> ("favorites:" ++ JS.trim (newListName s))%string).
      { intros Heq. apply (append_inj_l "favorites:") in Heq. subst k.
        apply getItem_In_keys, savedLists_spec in Hget.
        rewrite <- Hreg in Hget. apply includes_In in Hget.
        rewrite Hget in Hnew. discriminate. }
      unfold syncEffect.
      cbn [listKey setHash setNewListName setFavorites setListKey withStorage
           JS.truthy_opt].
      rewrite Ht.
      cbn [updateLists setFavoriteLists localStorage listKey favorites
           setHash withStorage setFavorites setListKey setNewListName
           JS.template].
      now rewrite !getItem_setItem_other.
    + unfold Favorites.step. cbn [effects_due Favorites.handler].
      unfold createList. now rewrite Hg.
  - intros Hblank. unfold Favorites.step. cbn [effects_due Favorites.handler].
    unfold createList. now rewrite Hblank.
Qed.

Lemma step_select_storage (key : string) (s : State) :
  localStorage (step (Select key) s)
  = if JS.truthy key
    then Storage.setItem ("favorites:" ++ key)%string
           (stored key (localStorage s)) (localStorage s)
    else localStorage s.
Proof.
  unfold Favorites.step, syncEffect. cbn [effects_due Favorites.handler].
  unfold selectList.
  cbn [listKey setHash setFavorites setListKey JS.truthy_opt].
  now destruct (JS.truthy key).
Qed.

(** X8. Selecting a list makes it active with the favourites stored for it
    (none when nothing is stored), and changes the stored favourites of no
    list. *)
Theorem select_loads_stored (key : string) (s : State) :
  listKey (step (Select key) s) = Some key
  /\ favorites (step (Select key) s) = stored key (localStorage s)
  /\ (forall k, stored k (localStorage (step (Select key) s))
                = stored k (localStorage s)).
Proof.
  split; [|split].
  - unfold Favorites.step. cbn [effects_due]. now rewrite effects_listKey.
  - unfold Favorites.step. cbn [effects_due]. now rewrite effects_favorites.
  - intros k. rewrite step_select_storage.
    destruct (JS.truthy key); [|reflexivity].
    destruct (String.eqb k key) eqn:E.
    + apply String.eqb_eq in E. subst k. apply stored_setItem_same.
    + apply stored_setItem_other. intros ->.
      now rewrite String.eqb_refl in E.
Qed.

Lemma step_delete_storage (key : string) (s : State) :
  (localStorage (step (Delete key true) s)
   = Storage.removeItem ("favorites:" ++ key)%string (localStorage s)
   \/ exists fk,
        In fk (savedLists (Storage.removeItem ("favorites:" ++ key)%string
                                              (localStorage s)))
        /\ localStorage (step (Delete key true) s)
           = Storage.setItem ("favorites:" ++ fk)%string
               (stored fk (Storage.removeItem ("favorites:" ++ key)%string
                                              (localStorage s)))
               (Storage.removeItem ("favorites:" ++ key)%string
                                   (localStorage s)))
  /\ favoriteLists (step (Delete key true) s)
     = savedLists (localStorage (step (Delete key true) s)).
Proof.
  unfold Favorites.step. cbn [effects_due Favorites.handler andb].
  unfold deleteList. cbn [negb].
  destruct (is_active key s); [|split; [left|]; reflexivity].
  cbn [localStorage withStorage].
  destruct (savedLists (Storage.removeItem ("favorites:" ++ key)%string
                                           (localStorage s)))
    as [|k rest] eqn:Hrem; [split; [left|]; reflexivity|].
  destruct (JS.truthy k) eqn:Ht.
  - unfold syncEffect.
    cbn [listKey setHash setFavorites setListKey withStorage
         setFavoriteLists JS.truthy_opt].
    rewrite Ht. split; [right|reflexivity].
    exists k. split; [now left|reflexivity].
  - split; [left|]; reflexivity.
Qed.

(** X9. After a confirmed deletion the list is no longer shown in the
    registry, and every other list keeps its stored favourites. *)
Theorem delete_removes_only_that_list (key : string) (s : State) :
  ~ In key (favoriteLists (step (Delete key true) s))
  /\ (forall k, k <> key ->
        stored k (localStorage (step (Delete key true) s))
        = stored k (localStorage s)).
Proof.
  destruct (step_delete_storage key s) as [Hst Hreg].
  split.
  - rewrite Hreg. intros Hin. apply savedLists_spec in Hin.
    destruct Hst as [Hst | [fk [Hfk Hst]]]; rewrite Hst in Hin.
    + now apply keys_removeItem in Hin.
    + apply keys_setItem in Hin. destruct Hin as [Heq|Hin].
      * apply (append_inj_l "favorites:") in Heq. subst fk.
        now apply remaining_differs in Hfk.
      * now apply keys_removeItem in Hin.
  - intros k Hne.
    destruct Hst as [Hst | [fk [Hfk Hst]]]; rewrite Hst.
    + now apply stored_removeItem_other.
    + destruct (String.eqb k fk) eqn:E.
      * apply String.eqb_eq in E. subst fk.
        rewrite stored_setItem_same. now apply stored_removeItem_other.
      * rewrite stored_setItem_other.
        -- now apply stored_removeItem_other.
        -- intros ->. now rewrite String.eqb_refl in E.
Qed.

(** *** Start-up from the fragment and from storage *)

(** X10. When the fragment names a list, start-up adopts it with the
    favourites the fragment decodes to, and the sync effect stores them
    under that name whatever was stored there before; a fragment without a
    [favs] parameter leaves the named list empty, in memory and in
    storage. *)
Theorem fragment_list_overrides_storage (r1 r2 : nat) (s : State)
        (name : string) :
  Url.get "list" (paramsOf s) = Some name ->
  name <> EmptyString ->
  listKey (step (LoadInitial r1 r2) s) = Some name
  /\ favorites (step (LoadInitial r1 r2) s)
     = fst (decodeFavs decompress (Url.get "favs" (paramsOf s)) s)
  /\ Storage.getItem ("favorites:" ++ name)%string
                     (localStorage (step (LoadInitial r1 r2) s))
     = Some (favorites (step (LoadInitial r1 r2) s))
  /\ (Url.get "favs" (paramsOf s) = None ->
      favorites (step (LoadInitial r1 r2) s) = []).
Proof.
  intros Hlist Hne.
  pose proof (truthy_nonempty name Hne) as Ht.
  assert (Hload : loadInitialList compress decompress r1 r2 s
                  = setFavorites
                      (fst (decodeFavs decompress
                              (Url.get "favs" (paramsOf s)) s))
                      (setListKey (Some name)
                         (snd (decodeFavs decompress
                                 (Url.get "favs" (paramsOf s)) s)))).
  { rewrite loadInitialList_unfold, Hlist. cbn [JS.truthy_opt].
    now rewrite Ht. }
  unfold Favorites.step. cbn [effects_due Favorites.handler].
  rewrite Hload. unfold syncEffect.
  cbn [listKey setFavorites setListKey JS.truthy_opt]. rewrite Ht.
  cbn [updateLists setFavoriteLists localStorage listKey favorites fragment
       setHash withStorage setFavorites setListKey JS.template].
  split; [reflexivity|]. split; [reflexivity|].
  split; [apply getItem_setItem_same|].
  intros Hnone. now rewrite Hnone.
Qed.

(** X11. Without a list name in the fragment and without a non-empty
    legacy array, start-up adopts the first saved list of the key scan with
    its stored favourites and writes the fragment for it; with no saved
    list it ends with no list, no favourites, and storage and fragment as
    they were. *)
Theorem startup_from_saved_lists (r1 r2 : nat) (s : State) :
  JS.truthy_opt (Url.get "list" (paramsOf s)) = false ->
  (Storage.getItem "favorites" (localStorage s) = None
   \/ Storage.getItem "favorites" (localStorage s) = Some []) ->
  match savedLists (localStorage s) with
  | [] =>
      listKey (step (LoadInitial r1 r2) s) = None
      /\ favorites (step (LoadInitial r1 r2) s) = []
      /\ localStorage (step (LoadInitial r1 r2) s) = localStorage s
      /\ fragment (step (LoadInitial r1 r2) s) = fragment s
  | k :: _ =>
      listKey (step (LoadInitial r1 r2) s) = Some k
      /\ favorites (step (LoadInitial r1 r2) s) = stored k (localStorage s)
      /\ (k <> EmptyString ->
          fragment (step (LoadInitial r1 r2) s)
          = listHash compress k (stored k (localStorage s)))
  end.
Proof.
  intros Hlist Hleg.
  assert (Hload : loadInitialList compress decompress r1 r2 s
                  = match savedLists (localStorage s) with
                    | firstKey :: _ =>
                        setFavorites (stored firstKey (localStorage s))
                                     (setListKey (Some firstKey) s)
                    | [] => setFavorites [] (setListKey None s)
                    end).
  { rewrite loadInitialList_unfold, Hlist.
    destruct Hleg as [-> | ->]; reflexivity. }
  unfold Favorites.step. cbn [effects_due Favorites.handler].
  rewrite Hload.
  destruct (savedLists (localStorage s)) as [|k rest].
  - repeat split.
  - unfold syncEffect. cbn [listKey setFavorites setListKey JS.truthy_opt].
    destruct (JS.truthy k) eqn:Ht.
    + repeat split.
    + destruct k; [|discriminate]. repeat split. intros Hne. congruence.
Qed.

(** *** The fragment as a carrier of a list *)

Lemma split_without (sep : ascii) (a : string) :
  without sep a = true -> JS.split sep a = [a].
Proof.
  unfold without. induction a as [|c a IH]; simpl; [reflexivity|].
  destruct (Ascii.eqb c sep); simpl; [intros Hf; discriminate Hf|].
  intros Ha. now rewrite (IH Ha).
Qed.

Lemma split_append (sep : ascii) (a b : string) :
  without sep a = true ->
  JS.split sep (a ++ String sep b)%string = a :: JS.split sep b.
Proof.
  unfold without. induction a as [|c a IH]; simpl.
  - now rewrite Ascii.eqb_refl.
  - destruct (Ascii.eqb c sep); simpl; [intros Hf; discriminate Hf|].
    intros Ha. now rewrite (IH Ha).
Qed.

Lemma all_chars_append (p : ascii -> bool) (a b : string) :
  all_chars p (a ++ b)%string = all_chars p a && all_chars p b.
Proof.
  induction a as [|c a IH]; simpl; [reflexivity|].
  now rewrite IH, andb_assoc.
Qed.

Lemma without_append (sep : ascii) (a b : string) :
  without sep (a ++ b)%string = without sep a && without sep b.
Proof. apply all_chars_append. Qed.

Lemma clean_label_parts (l : string) :
  clean_label l = true ->
  JS.truthy l = true /\ without "," l = true /\ JS.trim l = l.
Proof.
  unfold clean_label. intros H.
  apply andb_prop in H. destruct H as [H Htrim].
  apply andb_prop in H. destruct H as [Ht Hc].
  apply String.eqb_eq in Htrim. now repeat split.
Qed.

Lemma split_join (favs : list string) :
  Forall (fun l => clean_label l = true) favs ->
  favs <> [] ->
  JS.split "," (JS.join "," favs) = favs.
Proof.
  induction favs as [|x favs IH]; [congruence|].
  intros Hall _. inversion Hall as [|? ? Hx Hrest]; subst.
  destruct (clean_label_parts x Hx) as [_ [Hc _]].
  destruct favs as [|y favs]; [now apply split_without|].
  change (JS.join "," (x :: y :: favs))
    with (x ++ String "," (JS.join "," (y :: favs)))%string.
  rewrite split_append by assumption.
  now rewrite IH.
Qed.

Lemma trim_filter_clean (favs : list string) :
  Forall (fun l => clean_label l = true) favs ->
  filter JS.truthy (map JS.trim favs) = favs.
Proof.
  induction 1 as [|x favs Hx _ IH]; [reflexivity|].
  destruct (clean_label_parts x Hx) as [Ht [_ Htrim]].
  simpl. now rewrite Htrim, Ht, IH.
Qed.

Lemma join_truthy (favs : list string) :
  Forall (fun l => clean_label l = true) favs ->
  favs <> [] -> JS.truthy (JS.join "," favs) = true.
Proof.
  intros Hall Hne. destruct favs as [|x favs]; [congruence|].
  inversion Hall as [|? ? Hx _]; subst.
  destruct (clean_label_parts x Hx) as [Ht _].
  destruct x; [discriminate|]. now destruct favs.
Qed.

Lemma decoded_join (favs : list string) :
  Forall (fun l => clean_label l = true) favs ->
  (if JS.truthy (JS.join "," favs)
   then filter JS.truthy (map JS.trim (JS.split "," (JS.join "," favs)))
   else []) = favs.
Proof.
  intros Hall. destruct favs as [|x favs]; [reflexivity|].
  rewrite join_truthy, split_join by (assumption || discriminate).
  now apply trim_filter_clean.
Qed.

(** The bytes the hash setter writes for an encoded character. *)
Lemma encoded_byte_decodes (c : ascii) (rest : string) :
  Url.fragment_encoded c = true ->
  Url.percent_decode
    (String "%" (String (Url.hex_digit (nat_of_ascii c / 16))
                   (String (Url.hex_digit (nat_of_ascii c mod 16)) rest)))
  = String c (Url.percent_decode rest).
Proof.
  destruct c as [b0 b1 b2 b3 b4 b5 b6 b7].
  destruct b0, b1, b2, b3, b4, b5, b6, b7;
    intros Henc; try discriminate Henc; reflexivity.
Qed.

Lemma hex_digits_plain (c : ascii) :
  Ascii.eqb (Url.hex_digit (nat_of_ascii c / 16)) "+" = false
  /\ Ascii.eqb (Url.hex_digit (nat_of_ascii c mod 16)) "+" = false
  /\ Ascii.eqb (Url.hex_digit (nat_of_ascii c / 16)) "&" = false
  /\ Ascii.eqb (Url.hex_digit (nat_of_ascii c mod 16)) "&" = false.
Proof.
  destruct c as [b0 b1 b2 b3 b4 b5 b6 b7].
  destruct b0, b1, b2, b3, b4, b5, b6, b7; repeat split.
Qed.

Lemma fragment_text_app (a b : string) :
  Url.fragment_text (a ++ b)%string
  = (Url.fragment_text a ++ Url.fragment_text b)%string.
Proof.
  induction a as [|c a IH]; simpl; [reflexivity|].
  destruct (Url.tab_or_newline c); [assumption|].
  destruct (Url.fragment_encoded c); simpl; now rewrite IH.
Qed.

Lemma fragment_text_without_amp (x : string) :
  without "&" x = true -> without "&" (Url.fragment_text x) = true.
Proof.
  unfold without. induction x as [|c x IH]; [reflexivity|].
  cbn [all_chars Url.fragment_text]. intros H.
  apply andb_prop in H. destruct H as [Hc Hx].
  destruct (Url.tab_or_newline c); [now apply IH|].
  destruct (Url.fragment_encoded c); cbn [all_chars].
  - destruct (hex_digits_plain c) as [_ [_ [Hh Hl]]].
    rewrite Hh, Hl. now rewrite (IH Hx).
  - now rewrite Hc, (IH Hx).
Qed.

Lemma plus_to_space_fragment (x : string) :
  without "+" x = true ->
  Url.plus_to_space (Url.fragment_text x) = Url.fragment_text x.
Proof.
  unfold without. induction x as [|c x IH]; [reflexivity|].
  cbn [all_chars Url.fragment_text]. intros H.
  apply andb_prop in H. destruct H as [Hc Hx].
  destruct (Url.tab_or_newline c); [now apply IH|].
  destruct (Url.fragment_encoded c); cbn [Url.plus_to_space].
  - destruct (hex_digits_plain c) as [Hh [Hl _]].
    rewrite Hh, Hl. now rewrite (IH Hx).
  - destruct (Ascii.eqb c "+"); [discriminate Hc|]. now rewrite (IH Hx).
Qed.

Lemma percent_decode_fragment (x : string) :
  without "%" x = true ->
  all_chars (fun c => negb (Url.tab_or_newline c)) x = true ->
  Url.percent_decode (Url.fragment_text x) = x.
Proof.
  unfold without. induction x as [|c x IH]; [reflexivity|].
  cbn [all_chars Url.fragment_text]. intros H Ht.
  apply andb_prop in H. destruct H as [Hc Hx].
  apply andb_prop in Ht. destruct Ht as [Htc Htx].
  destruct (Url.tab_or_newline c); [discriminate Htc|].
  destruct (Url.fragment_encoded c) eqn:Henc.
  - rewrite (encoded_byte_decodes c _ Henc). now rewrite IH.
  - cbn [Url.percent_decode].
    destruct (Ascii.eqb c "%"); [discriminate Hc|]. now rewrite IH.
Qed.

Lemma form_decode_fragment (x : string) :
  fragment_safe x = true -> Url.form_decode (Url.fragment_text x) = x.
Proof.
  unfold fragment_safe, url_safe, Url.form_decode. intros H.
  apply andb_prop in H. destruct H as [H Htab].
  apply andb_prop in H. destruct H as [H Hpct].
  apply andb_prop in H. destruct H as [_ Hplus].
  rewrite plus_to_space_fragment by assumption.
  now apply percent_decode_fragment.
Qed.

Lemma fragment_safe_without_amp (x : string) :
  fragment_safe x = true -> without "&" x = true.
Proof.
  unfold fragment_safe, url_safe. intros H.
  apply andb_prop in H. destruct H as [H _].
  apply andb_prop in H. destruct H as [H _].
  apply andb_prop in H. exact (proj1 H).
Qed.

Lemma fragment_text_listHash (name c : string) :
  Url.fragment_text ("list=" ++ name ++ "&favs=" ++ c)%string
  = (("list=" ++ Url.fragment_text name)
       ++ String "&" ("favs=" ++ Url.fragment_text c))%string.
Proof.
  change ("list=" ++ name ++ "&favs=" ++ c)%string
    with ("list=" ++ (name ++ ("&favs=" ++ c)))%string.
  now rewrite !fragment_text_app.
Qed.

Lemma split_list_segment (n' rest : string) :
  without "&" n' = true ->
  JS.split "&" (String "l" (String "i" (String "s" (String "t" (String "="
                  (n' ++ String "&" rest))))))%string
  = String "l" (String "i" (String "s" (String "t" (String "=" n'))))
      :: JS.split "&" rest.
Proof.
  intros Hn. apply (split_append "&" ("list=" ++ n')%string rest).
  rewrite without_append. now rewrite Hn.
Qed.

Lemma split_favs_segment (c' : string) :
  without "&" c' = true ->
  JS.split "&" (String "f" (String "a" (String "v" (String "s"
                  (String "=" c')))))
  = [String "f" (String "a" (String "v" (String "s" (String "=" c'))))].
Proof.
  intros Hc. apply (split_without "&" ("favs=" ++ c')%string).
  rewrite without_append. now rewrite Hc.
Qed.

Lemma params_unfold (name c : string) :
  Url.URLSearchParams
    ("?" ++ Url.fragment_text ("list=" ++ name ++ "&favs=" ++ c))%string
  = map (fun seg => let (n, v) := Url.cut_pair seg in
                    (Url.form_decode n, Url.form_decode v))
        (filter JS.truthy
           (JS.split "&"
              (String "l" (String "i" (String "s" (String "t" (String "="
                 (Url.fragment_text name
                    ++ String "&"
                         (String "f" (String "a" (String "v" (String "s"
                            (String "=" (Url.fragment_text c)))))))))))))%string).
Proof. now rewrite fragment_text_listHash. Qed.

(** The first parameter of a fragment written for a list is its name,
    whatever follows it. *)
Lemma params_head (name c : string) :
  fragment_safe name = true ->
  exists rest,
    Url.URLSearchParams
      ("?" ++ Url.fragment_text ("list=" ++ name ++ "&favs=" ++ c))%string
    = ("list", name) :: rest.
Proof.
  intros Hsafe.
  pose proof (fragment_text_without_amp name
                (fragment_safe_without_amp name Hsafe)) as Hamp.
  rewrite params_unfold, (split_list_segment _ _ Hamp).
  cbn [filter JS.truthy map Url.cut_pair Ascii.eqb Bool.eqb].
  fold (Url.form_decode (Url.fragment_text name)).
  rewrite (form_decode_fragment name Hsafe).
  eexists. reflexivity.
Qed.

Lemma params_of_listHash (name c : string) :
  fragment_safe name = true -> without "&" c = true ->
  Url.URLSearchParams
    ("?" ++ Url.fragment_text ("list=" ++ name ++ "&favs=" ++ c))%string
  = [("list", name); ("favs", Url.form_decode (Url.fragment_text c))].
Proof.
  intros Hsafe Hc.
  pose proof (fragment_text_without_amp name
                (fragment_safe_without_amp name Hsafe)) as Hamp.
  pose proof (fragment_text_without_amp c Hc) as Hcamp.
  rewrite params_unfold, (split_list_segment _ _ Hamp),
    (split_favs_segment _ Hcamp).
  cbn [filter JS.truthy map Url.cut_pair Ascii.eqb Bool.eqb].
  fold (Url.form_decode (Url.fragment_text name)).
  fold (Url.form_decode (Url.fragment_text c)).
  now rewrite (form_decode_fragment name Hsafe).
Qed.

Lemma load_shared_fragment (r1 r2 : nat) (s : State)
      (name : string) (favs : list string) :
  name <> EmptyString ->
  fragment_safe name = true ->
  Forall (fun l => clean_label l = true) favs ->
  survives_fragment compress decompress (JS.join "," favs) ->
  fragment s = listHash compress name favs ->
  loadInitialList compress decompress r1 r2 s
  = setFavorites favs (setListKey (Some name) s).
Proof.
  intros Hne Hsafe Hclean [Hamp [Htr Hdec]] Hfrag.
  rewrite loadInitialList_unfold. unfold paramsOf. rewrite Hfrag.
  unfold listHash. rewrite (params_of_listHash name _ Hsafe Hamp).
  cbn [Url.get String.eqb Ascii.eqb Bool.eqb JS.truthy_opt].
  rewrite (truthy_nonempty name Hne).
  unfold decodeFavs, favsFromUrl_try. rewrite Htr, Hdec.
  cbv beta iota.
  destruct (JS.truthy (JS.join "," favs)) eqn:Hj;
    pose proof (decoded_join favs Hclean) as Hd; rewrite Hj in Hd;
    cbn [fst snd]; now rewrite Hd.
Qed.

(** X12. A fragment written for a list is read back as that list. When
    the name has none of the characters [&], [+], [%], tab, line feed and
    carriage return, the labels are non-empty, comma-free and without
    white space (of any kind [trim] removes) at their ends, and the codec's
    output survives the fragment as the browser holds it, then start-up
    from the text [list=<name>&favs=<compressed join>] adopts the name with
    exactly those labels, stores them under the name, assigns the same
    text again and logs nothing. *)
Theorem shared_link_reconstructs_list (r1 r2 : nat) (s : State)
        (name : string) (favs : list string) :
  name <> EmptyString ->
  fragment_safe name = true ->
  Forall (fun l => clean_label l = true) favs ->
  survives_fragment compress decompress (JS.join "," favs) ->
  fragment s = listHash compress name favs ->
  listKey (step (LoadInitial r1 r2) s) = Some name
  /\ favorites (step (LoadInitial r1 r2) s) = favs
  /\ stored name (localStorage (step (LoadInitial r1 r2) s)) = favs
  /\ location_hash (step (LoadInitial r1 r2) s) = location_hash s
  /\ console (step (LoadInitial r1 r2) s) = console s.
Proof.
  intros Hne Hsafe Hclean Hsurv Hfrag.
  unfold Favorites.step. cbn [effects_due Favorites.handler].
  rewrite (load_shared_fragment r1 r2 s name favs Hne Hsafe Hclean Hsurv Hfrag).
  unfold syncEffect. cbn [listKey setFavorites setListKey JS.truthy_opt].
  rewrite (truthy_nonempty name Hne).
  unfold location_hash.
  cbn [updateLists setFavoriteLists localStorage listKey favorites fragment
       console setHash withStorage setFavorites setListKey JS.template].
  repeat split.
  - apply stored_setItem_same.
  - now rewrite Hfrag.
Qed.

(** X13. The hashchange that follows the program's own write changes
    nothing: from a state in which storage, the text assigned to the
    fragment and the registry agree with the active list, with a name and
    labels as in X12, running start-up again gives back the same state. *)
Theorem own_hashchange_is_identity (r1 r2 : nat) (s : State) (name : string) :
  active s name ->
  synced compress s ->
  registry_synced s ->
  fragment_safe name = true ->
  Forall (fun l => clean_label l = true) (favorites s) ->
  survives_fragment compress decompress (JS.join "," (favorites s)) ->
  step (LoadInitial r1 r2) s = s.
Proof.
  intros Hact Hsync Hreg Hsafe Hclean Hsurv.
  destruct (Hsync name Hact) as [Hst Hfr].
  destruct Hact as [Hk Hne].
  unfold Favorites.step. cbn [effects_due Favorites.handler].
  rewrite (load_shared_fragment r1 r2 s name (favorites s)
             Hne Hsafe Hclean Hsurv Hfr).
  unfold syncEffect. cbn [listKey setFavorites setListKey JS.truthy_opt].
  rewrite (truthy_nonempty name Hne).
  unfold updateLists, setHash, withStorage, setFavorites, setListKey,
    setFavoriteLists.
  cbn [localStorage listKey favorites fragment console favoriteLists
       newListName JS.template].
  rewrite (setItem_same_value _ _ _ Hst).
  unfold registry_synced in Hreg. rewrite <- Hreg.
  unfold listHash. cbn. rewrite <- Hk.
  assert (Hfr' : fragment s
                 = String "l" (String "i" (String "s" (String "t" (String "="
                     (name ++ String "&" (String "f" (String "a" (String "v"
                        (String "s" (String "="
                           (compress (JS.join "," (favorites s))))))))))))))
    by exact Hfr.
  rewrite <- Hfr'. now destruct s.
Qed.

(** X14. Opening the link the share button copies reconstructs the list:
    in a browser whose page is opened with the fragment of that link,
    whatever its storage, start-up adopts the sharer's list name (the word
    [null] when the sharer had no list) with exactly the sharer's
    favourites and stores them under that name; name, labels and codec as
    in X12. *)
Theorem shared_link_opens_the_list (origin pathname : string) (r1 r2 : nat)
        (sharer opener : State) :
  JS.template (listKey sharer) <> EmptyString ->
  fragment_safe (JS.template (listKey sharer)) = true ->
  Forall (fun l => clean_label l = true) (favorites sharer) ->
  survives_fragment compress decompress (JS.join "," (favorites sharer)) ->
  shareUrl compress origin pathname sharer
  = (origin ++ pathname ++ "#" ++ fragment opener)%string ->
  listKey (step (LoadInitial r1 r2) opener)
  = Some (JS.template (listKey sharer))
  /\ favorites (step (LoadInitial r1 r2) opener) = favorites sharer
  /\ stored (JS.template (listKey sharer))
            (localStorage (step (LoadInitial r1 r2) opener))
     = favorites sharer.
Proof.
  intros Hne Hsafe Hclean Hsurv Hurl.
  assert (Hfrag : fragment opener
                  = listHash compress (JS.template (listKey sharer))
                             (favorites sharer)).
  { unfold shareUrl in Hurl.
    apply append_inj_l, append_inj_l in Hurl.
    simpl in Hurl. injection Hurl as Hurl. symmetry. exact Hurl. }
  unfold Favorites.step. cbn [effects_due Favorites.handler].
  rewrite (load_shared_fragment r1 r2 opener _ _ Hne Hsafe Hclean Hsurv Hfrag).
  unfold syncEffect. cbn [listKey setFavorites setListKey JS.truthy_opt].
  rewrite (truthy_nonempty _ Hne).
  cbn [updateLists setFavoriteLists localStorage listKey favorites
       setHash withStorage setFavorites setListKey JS.template].
  repeat split. apply stored_setItem_same.
Qed.

(** *** What the decoder hands over *)

Lemma trim_start_suffix_len (n : nat) (s : string) :
  String.length s <= n ->
  (exists p, s = (p ++ JS.trim_start s)%string)
  /\ leading_space (JS.trim_start s) = false.
Proof.
  revert s. induction n as [|n IH]; intros s Hlen.
  - destruct s; [|simpl in Hlen; lia]. split; [now exists EmptyString|].
    reflexivity.
  - destruct s as [|c1 t1]; [split; [now exists EmptyString|reflexivity]|].
    simpl in Hlen. cbn [JS.trim_start].
    destruct (JS.is_space c1) eqn:E1.
    { destruct (IH t1 ltac:(lia)) as [[p Hp] Hl]. split; [|exact Hl].
      exists (String c1 p). simpl. now rewrite <- Hp. }
    destruct t1 as [|c2 t2].
    { split; [now exists EmptyString|]. simpl. now rewrite E1. }
    simpl in Hlen.
    destruct (JS.is_space2 c1 c2) eqn:E2.
    { destruct (IH t2 ltac:(lia)) as [[p Hp] Hl]. split; [|exact Hl].
      exists (String c1 (String c2 p)). simpl. now rewrite <- Hp. }
    destruct t2 as [|c3 t3].
    { split; [now exists EmptyString|]. simpl. now rewrite E1, E2. }
    simpl in Hlen.
    destruct (JS.is_space3 c1 c2 c3) eqn:E3.
    { destruct (IH t3 ltac:(lia)) as [[p Hp] Hl]. split; [|exact Hl].
      exists (String c1 (String c2 (String c3 p))). simpl. now rewrite <- Hp. }
    split; [now exists EmptyString|]. simpl. now rewrite E1, E2, E3.
Qed.

Lemma trim_start_fixed (t : string) :
  leading_space t = false -> JS.trim_start t = t.
Proof.
  destruct t as [|c1 [|c2 [|c3 t3]]]; simpl; try reflexivity.
  - destruct (JS.is_space c1); [discriminate|reflexivity].
  - destruct (JS.is_space c1); [discriminate|].
    destruct (JS.is_space2 c1 c2); [discriminate|reflexivity].
  - destruct (JS.is_space c1); [discriminate|].
    destruct (JS.is_space2 c1 c2); [discriminate|].
    destruct (JS.is_space3 c1 c2 c3); [discriminate|reflexivity].
Qed.

Lemma trim_end_prefix (t : string) :
  exists w, t = (JS.trim_end t ++ w)%string.
Proof.
  induction t as [|c t [w IH]]; [now exists EmptyString|].
  cbn [JS.trim_end]. cbv zeta.
  destruct (JS.is_space_char (String c (JS.trim_end t))).
  - now exists (String c t).
  - exists w. simpl. now rewrite <- IH.
Qed.

Lemma leading_space_app (r w : string) :
  leading_space r = true -> leading_space (r ++ w)%string = true.
Proof.
  destruct r as [|c1 [|c2 [|c3 r3]]]; simpl; intros H.
  - discriminate H.
  - destruct (JS.is_space c1); [reflexivity|discriminate H].
  - destruct (JS.is_space c1); [reflexivity|].
    destruct (JS.is_space2 c1 c2); [reflexivity|discriminate H].
  - exact H.
Qed.

Lemma trim_end_no_leading (t : string) :
  leading_space t = false -> leading_space (JS.trim_end t) = false.
Proof.
  intros Ht. destruct (leading_space (JS.trim_end t)) eqn:E; [|reflexivity].
  destruct (trim_end_prefix t) as [w Hw].
  apply (leading_space_app _ w) in E. rewrite <- Hw in E. congruence.
Qed.

Lemma trim_end_idem (s : string) : JS.trim_end (JS.trim_end s) = JS.trim_end s.
Proof.
  induction s as [|c s IH]; [reflexivity|].
  cbn [JS.trim_end]. cbv zeta.
  destruct (JS.is_space_char (String c (JS.trim_end s))) eqn:E; [reflexivity|].
  cbn [JS.trim_end]. cbv zeta. now rewrite IH, E.
Qed.

Lemma trim_idem (s : string) : JS.trim (JS.trim s) = JS.trim s.
Proof.
  unfold JS.trim.
  rewrite (trim_start_fixed (JS.trim_end (JS.trim_start s))).
  - apply trim_end_idem.
  - apply trim_end_no_leading.
    apply (trim_start_suffix_len (String.length s) s (le_n _)).
Qed.

Lemma all_chars_trim (p : ascii -> bool) (s : string) :
  all_chars p s = true -> all_chars p (JS.trim s) = true.
Proof.
  intros Hs. unfold JS.trim.
  destruct (trim_start_suffix_len (String.length s) s (le_n _)) as [[q Hq] _].
  destruct (trim_end_prefix (JS.trim_start s)) as [w Hw].
  rewrite Hq, all_chars_append in Hs. apply andb_prop in Hs.
  destruct Hs as [_ Hs]. rewrite Hw, all_chars_append in Hs.
  apply andb_prop in Hs. tauto.
Qed.

Lemma split_pieces_without (sep : ascii) (s : string) :
  Forall (fun piece => without sep piece = true) (JS.split sep s).
Proof.
  unfold without. induction s as [|c s IH]; simpl.
  - repeat constructor.
  - destruct (Ascii.eqb c sep) eqn:E.
    + constructor; [reflexivity|assumption].
    + destruct (JS.split sep s) as [|t ts].
      * constructor; [simpl; now rewrite E|constructor].
      * inversion IH as [|? ? Ht Hts]; subst.
        constructor; [simpl; now rewrite E, Ht|assumption].
Qed.

Lemma decoded_pieces_clean (decoded : string) :
  Forall (fun l => clean_label l = true)
         (filter JS.truthy (map JS.trim (JS.split "," decoded))).
Proof.
  pose proof (split_pieces_without "," decoded) as Hall.
  induction Hall as [|piece rest Hp _ IH]; simpl; [constructor|].
  destruct (JS.truthy (JS.trim piece)) eqn:Ht; [|assumption].
  constructor; [|assumption].
  unfold clean_label. rewrite Ht, trim_idem, String.eqb_refl.
  unfold without. rewrite all_chars_trim; [reflexivity|exact Hp].
Qed.

(** X24. Whatever the fragment holds and whatever the decoder does with
    it, every favourite adopted from the fragment is a non-empty label
    without a comma and without white space at its ends. *)
Theorem decoded_favorites_are_clean (favEncoded : option string) (s : State) :
  Forall (fun l => clean_label l = true)
         (fst (decodeFavs decompress favEncoded s)).
Proof.
  unfold decodeFavs, favsFromUrl_try.
  destruct favEncoded as [enc|]; [|constructor].
  destruct (JS.truthy enc); [|constructor].
  destruct (decompress enc) as [[decoded|]|]; try constructor.
  destruct (JS.truthy decoded); [|constructor].
  apply decoded_pieces_clean.
Qed.

(** *** The fragment after an event *)

Lemma location_hash_listHash (s : State) (name : string) (favs : list string) :
  fragment s = listHash compress name favs ->
  location_hash s
  = ("#" ++ Url.fragment_text
              ("list=" ++ name ++ "&favs=" ++ compress (JS.join "," favs)))%string.
Proof.
  intros Hfr. unfold location_hash. rewrite Hfr. unfold listHash.
  now rewrite fragment_text_listHash.
Qed.

Lemma list_param_read (s : State) (name : string) (favs : list string) :
  fragment s = listHash compress name favs ->
  fragment_safe name = true ->
  Url.get "list" (paramsOf s) = Some name.
Proof.
  intros Hfr Hsafe. unfold paramsOf. rewrite Hfr. unfold listHash.
  destruct (params_head name (compress (JS.join "," favs)) Hsafe)
    as [rest ->].
  reflexivity.
Qed.

Lemma favs_param_read (s : State) (name : string) (favs : list string) :
  fragment s = listHash compress name favs ->
  fragment_safe name = true ->
  fragment_safe (compress (JS.join "," favs)) = true ->
  Url.get "favs" (paramsOf s) = Some (compress (JS.join "," favs)).
Proof.
  intros Hfr Hsafe Hc. unfold paramsOf. rewrite Hfr. unfold listHash.
  rewrite (params_of_listHash name _ Hsafe (fragment_safe_without_amp _ Hc)).
  rewrite (form_decode_fragment _ Hc). reflexivity.
Qed.

(** C1, as amended. After every event that changes the active list or its
    contents (toggle, select, create, delete with fall-back, start-up
    resolution with its migration), and over every other event from a state
    in agreement, whenever a list is active: storage key
    [favorites:<name>] holds the in-memory label sequence, and the fragment
    the browser holds is its form (tabs and newlines dropped, percent
    encoding) of [list=<name>&favs=<compressed comma-join>]. The list
    parameter read from it is the name when the name has none of [&], [+],
    [%], tab, line feed and carriage return; the favs parameter is the
    compressed comma-join when the compressed text has none of them
    either. *)
Theorem mutation_keeps_lists_synced (a : Action) (s : State) (name : string) :
  effects_due a s = true \/ synced compress s ->
  active (step a s) name ->
  Storage.getItem ("favorites:" ++ name)%string (localStorage (step a s))
  = Some (favorites (step a s))
  /\ location_hash (step a s)
     = ("#" ++ Url.fragment_text
                 ("list=" ++ name ++ "&favs="
                    ++ compress (JS.join "," (favorites (step a s)))))%string
  /\ (fragment_safe name = true ->
      Url.get "list" (paramsOf (step a s)) = Some name)
  /\ (fragment_safe name = true ->
      fragment_safe (compress (JS.join "," (favorites (step a s)))) = true ->
      Url.get "favs" (paramsOf (step a s))
      = Some (compress (JS.join "," (favorites (step a s))))).
Proof.
  intros Hpre Hact.
  destruct (step_keeps_synced a s Hpre name Hact) as [Hst Hfr].
  split; [exact Hst|].
  split; [now apply location_hash_listHash|].
  split.
  - intros Hsafe. now apply (list_param_read _ name (favorites (step a s))).
  - intros Hsafe Hc. now apply (favs_param_read _ name).
Qed.

Lemma randomName_fragment_safe (r1 r2 : nat) :
  r1 < 8 -> r2 < 8 ->
  fragment_safe (generateRandomListName r1 r2) = true.
Proof.
  intros H1 H2.
  do 8 (destruct r1 as [|r1];
        [do 8 (destruct r2 as [|r2]; [reflexivity|]); lia|]).
  lia.
Qed.

(** C6, as amended. When start-up finds no list name in the fragment and a
    non-empty legacy array under the key [favorites], and no list is stored
    yet under the name drawn, then after the event: the legacy key is gone,
    the new key [favorites:<name>] holds the array, for a name
    [adjective-animal] from the two word tables, that list is active with
    the array as its contents, the list parameter of the fragment is the
    name, and the text written is [list=<name>&favs=<v>] where [v] decodes
    to the comma-join of the array. *)
Theorem legacy_migration (r1 r2 : nat) (s : State) (legacy : list string) :
  (forall t, decompress (compress t) = Returns (Some t)) ->
  r1 < 8 -> r2 < 8 ->
  JS.truthy_opt (Url.get "list" (paramsOf s)) = false ->
  Storage.getItem "favorites" (localStorage s) = Some legacy ->
  legacy <> [] ->
  Storage.getItem ("favorites:" ++ generateRandomListName r1 r2)%string
                  (localStorage s) = None ->
  exists name adjective animal,
    In adjective adjectives /\ In animal animals
    /\ name = (adjective ++ "-" ++ animal)%string
    /\ Storage.getItem ("favorites:" ++ name)%string (localStorage s) = None
    /\ Storage.getItem "favorites" (localStorage (step (LoadInitial r1 r2) s))
       = None
    /\ Storage.getItem ("favorites:" ++ name)%string
                       (localStorage (step (LoadInitial r1 r2) s))
       = Some legacy
    /\ listKey (step (LoadInitial r1 r2) s) = Some name
    /\ favorites (step (LoadInitial r1 r2) s) = legacy
    /\ Url.get "list" (paramsOf (step (LoadInitial r1 r2) s)) = Some name
    /\ exists favs,
         fragment (step (LoadInitial r1 r2) s)
         = ("list=" ++ name ++ "&favs=" ++ favs)%string
         /\ decompress favs = Returns (Some (JS.join "," legacy)).
Proof.
  intros Hround H1 H2 Hlist Hleg Hne Hnew.
  destruct (randomName_pattern r1 r2 H1 H2) as [adj [ani [Hadj [Hani Hname]]]].
  exists (generateRandomListName r1 r2), adj, ani.
  split; [assumption|]. split; [assumption|]. split; [assumption|].
  split; [assumption|].
  assert (Hstep : step (LoadInitial r1 r2) s
                  = updateLists
                      (syncEffect compress
                         (setHash (listHash compress
                                     (generateRandomListName r1 r2) legacy)
                            (setFavorites legacy
                               (setListKey (Some (generateRandomListName r1 r2))
                                  (withStorage (Storage.removeItem "favorites")
                                     (withStorage
                                        (Storage.setItem
                                           ("favorites:"
                                              ++ generateRandomListName r1 r2)
                                           legacy) s))))))).
  { unfold Favorites.step. cbn [effects_due Favorites.handler].
    rewrite loadInitialList_unfold, Hlist, Hleg.
    assert (Hlen : (0 <? List.length legacy)%nat = true).
    { destruct legacy; [congruence|reflexivity]. }
    cbv beta iota zeta. now rewrite Hlen. }
  assert (Hfrag : fragment (step (LoadInitial r1 r2) s)
                  = listHash compress (generateRandomListName r1 r2) legacy).
  { rewrite Hstep. unfold syncEffect.
    cbn [listKey setHash setFavorites setListKey withStorage JS.truthy_opt].
    rewrite randomName_truthy. reflexivity. }
  split; [|split; [|split; [|split; [|split]]]].
  - rewrite Hstep. unfold syncEffect.
    cbn [listKey setHash setFavorites setListKey withStorage JS.truthy_opt].
    rewrite randomName_truthy.
    cbn [updateLists setFavoriteLists localStorage listKey favorites fragment
         setHash withStorage setFavorites setListKey JS.template].
    rewrite getItem_setItem_other.
    + apply getItem_removeItem_same.
    + rewrite Hname. simpl. discriminate.
  - rewrite Hstep. unfold syncEffect.
    cbn [listKey setHash setFavorites setListKey withStorage JS.truthy_opt].
    rewrite randomName_truthy.
    cbn [updateLists setFavoriteLists localStorage listKey favorites fragment
         setHash withStorage setFavorites setListKey JS.template].
    apply getItem_setItem_same.
  - rewrite Hstep. now rewrite effects_listKey.
  - rewrite Hstep. now rewrite effects_favorites.
  - apply (list_param_read _ _ legacy Hfrag).
    now apply randomName_fragment_safe.
  - exists (compress (JS.join "," legacy)). split; [exact Hfrag|apply Hround].
Qed.

(** X6. Creating a list under a name that, trimmed, is non-empty and not
    shown yet makes it the active list with no favourites: it is stored as
    the empty list under [favorites:<trimmed name>], it is listed in the
    registry, the input field is cleared, and the fragment the browser
    holds is its form of [list=<name>&favs=<compressed empty text>]; the
    list parameter read from it is the name when the name has none of [&],
    [+], [%], tab, line feed and carriage return. *)
Theorem create_makes_empty_active_list (s : State) (name : string) :
  JS.trim (newListName s) = name ->
  name <> EmptyString ->
  JS.includes name (favoriteLists s) = false ->
  listKey (step Create s) = Some name
  /\ favorites (step Create s) = []
  /\ newListName (step Create s) = EmptyString
  /\ Storage.getItem ("favorites:" ++ name)%string
                     (localStorage (step Create s)) = Some []
  /\ In name (favoriteLists (step Create s))
  /\ location_hash (step Create s)
     = ("#" ++ Url.fragment_text
                 ("list=" ++ name ++ "&favs=" ++ compress EmptyString))%string
  /\ (fragment_safe name = true ->
      Url.get "list" (paramsOf (step Create s)) = Some name).
Proof.
  intros Htrim Hne Hnew.
  pose proof (truthy_nonempty name Hne) as Ht.
  assert (Hfrag : fragment (step Create s) = listHash compress name []).
  { rewrite step_create_accepted by (rewrite Htrim, Ht, Hnew; reflexivity).
    rewrite Htrim. unfold syncEffect.
    cbn [listKey setHash setNewListName setFavorites setListKey withStorage
         JS.truthy_opt].
    rewrite Ht. reflexivity. }
  split; [|split; [|split; [|split; [|split; [|split]]]]].
  - rewrite step_create_accepted by (rewrite Htrim, Ht, Hnew; reflexivity).
    rewrite effects_listKey, Htrim. reflexivity.
  - rewrite step_create_accepted by (rewrite Htrim, Ht, Hnew; reflexivity).
    rewrite effects_favorites. reflexivity.
  - rewrite step_create_accepted by (rewrite Htrim, Ht, Hnew; reflexivity).
    unfold syncEffect. now destruct (JS.truthy_opt _).
  - rewrite step_create_accepted by (rewrite Htrim, Ht, Hnew; reflexivity).
    rewrite Htrim. unfold syncEffect.
    cbn [listKey setHash setNewListName setFavorites setListKey withStorage
         JS.truthy_opt].
    rewrite Ht.
    cbn [updateLists setFavoriteLists localStorage listKey favorites
         setHash withStorage setFavorites setListKey setNewListName
         JS.template].
    apply getItem_setItem_same.
  - rewrite step_create_accepted by (rewrite Htrim, Ht, Hnew; reflexivity).
    rewrite Htrim. unfold syncEffect.
    cbn [listKey setHash setNewListName setFavorites setListKey withStorage
         JS.truthy_opt].
    rewrite Ht.
    cbn [updateLists setFavoriteLists localStorage listKey favorites
         favoriteLists setHash withStorage setFavorites setListKey
         setNewListName JS.template].
    apply savedLists_spec, keys_setItem_new.
  - exact (location_hash_listHash _ name [] Hfrag).
  - intros Hsafe. exact (list_param_read _ name [] Hfrag Hsafe).
Qed.

End Codec.

(** *** Instances with the marker codec *)

Lemma toggle_without_list_witness :
  listKey MarkerCodec.fresh = None
  /\ Storage.getItem "favorites:null"
       (localStorage (MarkerCodec.step (Toggle "A") MarkerCodec.fresh))
     = Some ["A"]
  /\ fragment (MarkerCodec.step (Toggle "A") MarkerCodec.fresh) = EmptyString.
Proof.
  split; [reflexivity|].
  destruct (toggle_without_list MarkerCodec.compress MarkerCodec.decompress
              "A" MarkerCodec.fresh eq_refl) as [_ [_ [_ [Hst Hfr]]]].
  split; [exact Hst|exact Hfr].
Defined.

Lemma toggle_twice_witness :
  favorites (MarkerCodec.step (Toggle "C")
               (MarkerCodec.step (Toggle "C")
                  (MarkerCodec.visiting "trip" ["A"; "B"])))
  = ["A"; "B"].
Proof.
  exact (proj1 (toggle_twice MarkerCodec.compress MarkerCodec.decompress
                             "C" (MarkerCodec.visiting "trip" ["A"; "B"]))).
Defined.

(** C2 as stated fails: toggling a label twice that was listed before the
    end moves it to the end. *)
Lemma toggle_twice_reorders :
  favorites (MarkerCodec.step (Toggle "A")
               (MarkerCodec.step (Toggle "A")
                  (MarkerCodec.visiting "trip" ["A"; "B"])))
  <> favorites (MarkerCodec.visiting "trip" ["A"; "B"]).
Proof. vm_compute. discriminate. Qed.

Lemma delete_list_witness :
  listKey MarkerCodec.twoLists = Some "a"
  /\ listKey (MarkerCodec.step (Delete "a" true) MarkerCodec.twoLists)
     = Some "b"
  /\ favorites (MarkerCodec.step (Delete "a" true) MarkerCodec.twoLists)
     = ["B1"; "B2"]
  /\ fragment (MarkerCodec.step (Delete "a" true) MarkerCodec.twoLists)
     = "list=b&favs=QB1,B2"
  /\ listKey (MarkerCodec.step (Delete "b" true) MarkerCodec.twoLists)
     = Some "a"
  /\ listKey (MarkerCodec.step (Delete "trip" true)
                (MarkerCodec.visiting "trip" ["A"])) = None.
Proof.
  split; [reflexivity|].
  pose proof (proj1 (proj2 (delete_list MarkerCodec.compress
                              MarkerCodec.decompress "a" MarkerCodec.twoLists))
                    eq_refl "b" [] eq_refl ltac:(discriminate)) as [Hk [Hf Hh]].
  pose proof (proj2 (proj2 (proj2 (delete_list MarkerCodec.compress
                              MarkerCodec.decompress "b" MarkerCodec.twoLists)))
                    ltac:(discriminate)) as [Hk' _].
  pose proof (proj1 (proj2 (proj2 (delete_list MarkerCodec.compress
                              MarkerCodec.decompress "trip"
                              (MarkerCodec.visiting "trip" ["A"]))))
                    eq_refl eq_refl) as [Hk'' _].
  split; [exact Hk|]. split; [exact Hf|]. split; [exact Hh|].
  split; [exact Hk'|exact Hk''].
Defined.

(** C7 as stated fails when the only existing list is not the active one:
    after a toggle without a list the registry holds the single list
    [null]; deleting it leaves the in-memory favourites in place. *)
Lemma delete_only_list_keeps_favorites :
  listKey (MarkerCodec.step (Toggle "A") MarkerCodec.fresh) = None
  /\ savedLists (localStorage (MarkerCodec.step (Toggle "A") MarkerCodec.fresh))
     = ["null"]
  /\ savedLists
       (localStorage (MarkerCodec.step (Delete "null" true)
                        (MarkerCodec.step (Toggle "A") MarkerCodec.fresh)))
     = []
  /\ favorites (MarkerCodec.step (Delete "null" true)
                  (MarkerCodec.step (Toggle "A") MarkerCodec.fresh))
     = ["A"].
Proof. repeat split. Qed.



(** *** Instances of the further properties *)

Lemma visiting_synced (name : string) (favs : list string) :
  synced MarkerCodec.compress (MarkerCodec.visiting name favs).
Proof.
  intros n [Hk _]. simpl in Hk. injection Hk as <-. split.
  - simpl. now rewrite String.eqb_refl.
  - reflexivity.
Qed.

Lemma registry_follows_storage_witness :
  effects_due (Toggle "A") MarkerCodec.fresh = true
  /\ favoriteLists (MarkerCodec.step (Toggle "A") MarkerCodec.fresh)
     = ["null"].
Proof.
  split; [reflexivity|].
  exact (registry_follows_storage MarkerCodec.compress MarkerCodec.decompress
           (Toggle "A") MarkerCodec.fresh (or_introl eq_refl)).
Defined.

Lemma toggle_flips_one_label_witness :
  "B" <> "A"
  /\ JS.includes "B"
       (favorites (MarkerCodec.step (Toggle "A")
                     (MarkerCodec.visiting "trip" ["A"; "B"]))) = true.
Proof.
  assert (Hne : "B" <> "A") by discriminate.
  split; [exact Hne|].
  exact (proj1 (proj2 (toggle_flips_one_label MarkerCodec.compress
                         MarkerCodec.decompress "A"
                         (MarkerCodec.visiting "trip" ["A"; "B"])))
               "B" Hne).
Defined.

Lemma toggle_keeps_labels_distinct_witness :
  NoDup ["A"; "B"]
  /\ NoDup (favorites (MarkerCodec.step (Toggle "C")
                         (MarkerCodec.visiting "trip" ["A"; "B"]))).
Proof.
  assert (Hnd : NoDup ["A"; "B"]).
  { constructor.
    - intros [H|[]]. discriminate H.
    - constructor; [intros []|constructor]. }
  split; [exact Hnd|].
  exact (toggle_keeps_labels_distinct MarkerCodec.compress
           MarkerCodec.decompress "C"
           (MarkerCodec.visiting "trip" ["A"; "B"]) Hnd).
Defined.

Lemma toggle_writes_one_key_witness :
  "favorites" <> "favorites:null"
  /\ Storage.getItem "favorites"
       (localStorage (MarkerCodec.step (Toggle "A")
                        (MarkerCodec.returning [])))
     = Some [].
Proof.
  assert (Hne : "favorites" <> "favorites:null") by discriminate.
  split; [exact Hne|].
  exact (proj2 (toggle_writes_one_key MarkerCodec.compress
                  MarkerCodec.decompress "A" (MarkerCodec.returning []))
               "favorites" Hne).
Defined.

Lemma create_never_overwrites_witness :
  registry_synced (MarkerCodec.step (TypeName "trip")
                     (MarkerCodec.visiting "trip" ["A"]))
  /\ Storage.getItem "favorites:trip"
       (localStorage (MarkerCodec.step Create
                        (MarkerCodec.step (TypeName "trip")
                           (MarkerCodec.visiting "trip" ["A"]))))
     = Some ["A"]
  /\ MarkerCodec.step Create (MarkerCodec.step (TypeName "  ") MarkerCodec.fresh)
     = MarkerCodec.step (TypeName "  ") MarkerCodec.fresh.
Proof.
  assert (Hreg : registry_synced (MarkerCodec.step (TypeName "trip")
                                    (MarkerCodec.visiting "trip" ["A"])))
    by reflexivity.
  split; [exact Hreg|]. split.
  - exact (proj1 (create_never_overwrites MarkerCodec.compress
                    MarkerCodec.decompress
                    (MarkerCodec.step (TypeName "trip")
                       (MarkerCodec.visiting "trip" ["A"])))
                 Hreg "trip" ["A"] eq_refl).
  - exact (proj2 (create_never_overwrites MarkerCodec.compress
                    MarkerCodec.decompress
                    (MarkerCodec.step (TypeName "  ") MarkerCodec.fresh))
                 eq_refl).
Defined.

Lemma delete_removes_only_that_list_witness :
  "b" <> "a"
  /\ stored "b" (localStorage (MarkerCodec.step (Delete "a" true)
                                 MarkerCodec.twoLists))
     = ["B1"; "B2"].
Proof.
  assert (Hne : "b" <> "a") by discriminate.
  split; [exact Hne|].
  exact (proj2 (delete_removes_only_that_list MarkerCodec.compress
                  MarkerCodec.decompress "a" MarkerCodec.twoLists) "b" Hne).
Defined.

Lemma fragment_list_overrides_storage_witness :
  Url.get "list" (paramsOf (MarkerCodec.shared "list=trip")) = Some "trip"
  /\ favorites (MarkerCodec.step (LoadInitial 0 0)
                  (MarkerCodec.shared "list=trip")) = []
  /\ Storage.getItem "favorites:trip"
       (localStorage (MarkerCodec.step (LoadInitial 0 0)
                        (MarkerCodec.shared "list=trip"))) = Some [].
Proof.
  split; [reflexivity|].
  assert (Hne : "trip" <> EmptyString) by discriminate.
  destruct (fragment_list_overrides_storage MarkerCodec.compress
              MarkerCodec.decompress 0 0 (MarkerCodec.shared "list=trip")
              "trip" eq_refl Hne) as [_ [_ [Hst Hnone]]].
  split; [exact (Hnone eq_refl)|exact Hst].
Defined.

Lemma startup_from_saved_lists_witness :
  JS.truthy_opt (Url.get "list" (paramsOf MarkerCodec.revisiting)) = false
  /\ listKey (MarkerCodec.step (LoadInitial 0 0) MarkerCodec.revisiting)
     = Some "a"
  /\ favorites (MarkerCodec.step (LoadInitial 0 0) MarkerCodec.revisiting)
     = ["A"].
Proof.
  split; [reflexivity|].
  destruct (startup_from_saved_lists MarkerCodec.compress
              MarkerCodec.decompress 0 0 MarkerCodec.revisiting
              eq_refl (or_introl eq_refl)) as [Hk [Hf _]].
  split; [exact Hk|exact Hf].
Defined.

(** X25. Every name the generator can produce is non-empty and has none of
    the characters the fragment gives a meaning to, so the fragment written
    at migration carries the new list's name unchanged. *)
Theorem generated_name_is_url_safe (r1 r2 : nat) :
  r1 < 8 -> r2 < 8 ->
  url_safe (generateRandomListName r1 r2) = true
  /\ generateRandomListName r1 r2 <> EmptyString
  /\ Url.get "list"
       (Url.URLSearchParams
          ("?list=" ++ generateRandomListName r1 r2 ++ "&favs=")%string)
     = Some (generateRandomListName r1 r2).
Proof.
  intros H1 H2.
  do 8 (destruct r1 as [|r1]; [
    do 8 (destruct r2 as [|r2];
          [split; [reflexivity|split; [discriminate|reflexivity]]|]); lia |]).
  lia.
Qed.

Lemma generated_name_is_url_safe_witness :
  url_safe "sneaky-owl" = true
  /\ Url.get "list" (Url.URLSearchParams "?list=sneaky-owl&favs=")
     = Some "sneaky-owl".
Proof.
  assert (H4 : 4 < 8) by lia. assert (H5 : 5 < 8) by lia.
  destruct (generated_name_is_url_safe 4 5 H4 H5) as [Hs [_ Hg]].
  split; [exact Hs|exact Hg].
Defined.

Lemma registry_lists_prefixed_keys_witness :
  In "b" (savedLists (localStorage MarkerCodec.revisiting))
  /\ ~ In "theme" (savedLists (localStorage MarkerCodec.revisiting)).
Proof.
  split.
  - apply (proj1 (registry_lists_prefixed_keys
                    (localStorage MarkerCodec.revisiting)) "b").
    right. right. left. reflexivity.
  - intros Hin.
    apply (proj1 (registry_lists_prefixed_keys
                    (localStorage MarkerCodec.revisiting)) "theme") in Hin.
    simpl in Hin. destruct Hin as [H|[H|[H|[]]]]; discriminate H.
Defined.

(** *** Instances of the reworked statements *)

Lemma mutation_keeps_lists_synced_witness :
  effects_due Create (MarkerCodec.step (TypeName " my trip ") MarkerCodec.fresh)
  = true
  /\ active (MarkerCodec.step Create
               (MarkerCodec.step (TypeName " my trip ") MarkerCodec.fresh))
            "my trip"
  /\ location_hash
       (MarkerCodec.step Create
          (MarkerCodec.step (TypeName " my trip ") MarkerCodec.fresh))
     = "#list=my%20trip&favs=Q"
  /\ Url.get "list"
       (paramsOf (MarkerCodec.step Create
                    (MarkerCodec.step (TypeName " my trip ")
                                      MarkerCodec.fresh)))
     = Some "my trip".
Proof.
  assert (Hact : active (MarkerCodec.step Create
                           (MarkerCodec.step (TypeName " my trip ")
                                             MarkerCodec.fresh))
                        "my trip").
  { split; [reflexivity|discriminate]. }
  split; [reflexivity|]. split; [exact Hact|].
  destruct (mutation_keeps_lists_synced MarkerCodec.compress
              MarkerCodec.decompress Create
              (MarkerCodec.step (TypeName " my trip ") MarkerCodec.fresh)
              "my trip" (or_introl eq_refl) Hact) as [_ [Hh [Hl _]]].
  split; [exact Hh|exact (Hl eq_refl)].
Defined.

(** C1 as stated fails for a list name with an ampersand: after creating
    the list [a&b] it is the active list, yet the list parameter of the
    fragment reads [a]. *)
Lemma ampersand_name_read_back :
  listKey (MarkerCodec.step Create
             (MarkerCodec.step (TypeName "a&b") MarkerCodec.fresh))
  = Some "a&b"
  /\ Url.get "list"
       (paramsOf (MarkerCodec.step Create
                    (MarkerCodec.step (TypeName "a&b") MarkerCodec.fresh)))
     = Some "a"
  /\ Url.get "list"
       (paramsOf (MarkerCodec.step Create
                    (MarkerCodec.step (TypeName "a&b") MarkerCodec.fresh)))
     <> Some "a&b".
Proof. split; [reflexivity|]. split; [reflexivity|discriminate]. Qed.

Lemma favs_decoding_never_throws_witness :
  fst (decodeFavs MarkerCodec.decompress None MarkerCodec.fresh) = []
  /\ console (snd (decodeFavs MarkerCodec.decompress (Some "!bad")
                              MarkerCodec.fresh))
     = ["Error decoding favorites from URL:"]
  /\ favorites (loadInitialList MarkerCodec.compress MarkerCodec.decompress
                  0 0 (MarkerCodec.shared "list=trip&favs=QA, B,,C"))
     = ["A"; "B"; "C"].
Proof.
  split; [|split].
  - exact (proj1 (proj1 (favs_decoding_never_throws MarkerCodec.compress
                           MarkerCodec.decompress None MarkerCodec.fresh)
                        eq_refl)).
  - exact (proj2 (proj1 (proj2 (favs_decoding_never_throws
                                  MarkerCodec.compress MarkerCodec.decompress
                                  (Some "!bad") MarkerCodec.fresh))
                        "!bad" eq_refl eq_refl)).
  - exact (proj1 (proj2
             (proj2 (proj2 (favs_decoding_never_throws MarkerCodec.compress
                              MarkerCodec.decompress (Some "QA, B,,C")
                              (MarkerCodec.shared "list=trip&favs=QA, B,,C")))
                    0 0 eq_refl eq_refl))).
Defined.

(** C5 as stated fails when the decoder answers [null] for text no
    encoder produced: the list is empty, but no warning is logged. *)
Lemma null_answer_logs_nothing :
  (forall t, MarkerCodec.compress t <> "x")
  /\ MarkerCodec.decompress "x" = Returns None
  /\ fst (decodeFavs MarkerCodec.decompress (Some "x") MarkerCodec.fresh) = []
  /\ console (snd (decodeFavs MarkerCodec.decompress (Some "x")
                              MarkerCodec.fresh)) = [].
Proof.
  split; [intros t; discriminate|]. repeat split.
Qed.

Lemma legacy_migration_witness :
  exists name adjective animal,
    In adjective adjectives /\ In animal animals
    /\ name = (adjective ++ "-" ++ animal)%string
    /\ Storage.getItem ("favorites:" ++ name)%string
         (localStorage (MarkerCodec.returning ["X1"; "X2"])) = None
    /\ Storage.getItem "favorites"
         (localStorage (MarkerCodec.step (LoadInitial 0 7)
                          (MarkerCodec.returning ["X1"; "X2"]))) = None
    /\ Storage.getItem ("favorites:" ++ name)%string
         (localStorage (MarkerCodec.step (LoadInitial 0 7)
                          (MarkerCodec.returning ["X1"; "X2"])))
       = Some ["X1"; "X2"]
    /\ listKey (MarkerCodec.step (LoadInitial 0 7)
                  (MarkerCodec.returning ["X1"; "X2"])) = Some name
    /\ favorites (MarkerCodec.step (LoadInitial 0 7)
                    (MarkerCodec.returning ["X1"; "X2"])) = ["X1"; "X2"]
    /\ Url.get "list"
         (paramsOf (MarkerCodec.step (LoadInitial 0 7)
                      (MarkerCodec.returning ["X1"; "X2"]))) = Some name
    /\ exists favs,
         fragment (MarkerCodec.step (LoadInitial 0 7)
                     (MarkerCodec.returning ["X1"; "X2"]))
         = ("list=" ++ name ++ "&favs=" ++ favs)%string
         /\ MarkerCodec.decompress favs = Returns (Some "X1,X2").
Proof.
  apply (legacy_migration MarkerCodec.compress MarkerCodec.decompress 0 7
           (MarkerCodec.returning ["X1"; "X2"]) ["X1"; "X2"]).
  - intros t. reflexivity.
  - lia.
  - lia.
  - reflexivity.
  - reflexivity.
  - discriminate.
  - reflexivity.
Defined.

(** C6 as stated fails in two ways. On an empty legacy array nothing is
    migrated: the legacy key stays and no list is adopted. And the key
    written need not be new: when a list is already stored under the name
    drawn, its favourites are replaced by the legacy array. *)
Lemma legacy_kept_or_key_not_new :
  (JS.truthy_opt (Url.get "list" (paramsOf (MarkerCodec.returning []))) = false
   /\ Storage.getItem "favorites" (localStorage (MarkerCodec.returning []))
      = Some []
   /\ Storage.getItem "favorites"
        (localStorage (MarkerCodec.step (LoadInitial 0 7)
                         (MarkerCodec.returning []))) = Some []
   /\ listKey (MarkerCodec.step (LoadInitial 0 7) (MarkerCodec.returning []))
      = None)
  /\ (generateRandomListName 0 0 = "brave-otter"
      /\ Storage.getItem "favorites:brave-otter"
           (localStorage MarkerCodec.colliding) = Some ["mine"]
      /\ Storage.getItem "favorites:brave-otter"
           (localStorage (MarkerCodec.step (LoadInitial 0 0)
                            MarkerCodec.colliding)) = Some ["X1"]).
Proof. repeat split. Qed.

Lemma create_makes_empty_active_list_witness :
  JS.trim (MarkerCodec.NBSP ++ " my trip ") = "my trip"
  /\ listKey (MarkerCodec.step Create
                (MarkerCodec.step (TypeName (MarkerCodec.NBSP ++ " my trip "))
                                  MarkerCodec.fresh))
     = Some "my trip"
  /\ location_hash
       (MarkerCodec.step Create
          (MarkerCodec.step (TypeName (MarkerCodec.NBSP ++ " my trip "))
                            MarkerCodec.fresh))
     = "#list=my%20trip&favs=Q"
  /\ Url.get "list"
       (paramsOf (MarkerCodec.step Create
                    (MarkerCodec.step
                       (TypeName (MarkerCodec.NBSP ++ " my trip "))
                       MarkerCodec.fresh)))
     = Some "my trip".
Proof.
  split; [reflexivity|].
  assert (Hne : "my trip" <> EmptyString) by discriminate.
  destruct (create_makes_empty_active_list MarkerCodec.compress
              MarkerCodec.decompress
              (MarkerCodec.step (TypeName (MarkerCodec.NBSP ++ " my trip "))
                                MarkerCodec.fresh)
              "my trip" eq_refl Hne eq_refl)
    as [Hk [_ [_ [_ [_ [Hh Hl]]]]]].
  split; [exact Hk|]. split; [exact Hh|exact (Hl eq_refl)].
Defined.

Lemma marker_survives (text : string) :
  fragment_safe text = true ->
  survives_fragment MarkerCodec.compress MarkerCodec.decompress text.
Proof.
  intros Hsafe. unfold survives_fragment, MarkerCodec.compress.
  assert (Hq : fragment_safe (String "Q" text) = true) by exact Hsafe.
  rewrite (form_decode_fragment _ Hq).
  split; [|split; reflexivity].
  exact (fragment_safe_without_amp _ Hq).
Qed.

Lemma shared_link_reconstructs_list_witness :
  fragment_safe "my trip" = true
  /\ favorites (MarkerCodec.step (LoadInitial 0 0)
                  (MarkerCodec.shared "list=my trip&favs=QA,B")) = ["A"; "B"]
  /\ stored "my trip"
       (localStorage (MarkerCodec.step (LoadInitial 0 0)
                        (MarkerCodec.shared "list=my trip&favs=QA,B")))
     = ["A"; "B"].
Proof.
  split; [reflexivity|].
  assert (Hne : "my trip" <> EmptyString) by discriminate.
  assert (Hclean : Forall (fun l => clean_label l = true) ["A"; "B"])
    by (repeat constructor).
  destruct (shared_link_reconstructs_list MarkerCodec.compress
              MarkerCodec.decompress 0 0
              (MarkerCodec.shared "list=my trip&favs=QA,B")
              "my trip" ["A"; "B"]
              Hne eq_refl Hclean (marker_survives "A,B" eq_refl) eq_refl)
    as [_ [Hf [Hst _]]].
  split; [exact Hf|exact Hst].
Defined.

Lemma own_hashchange_is_identity_witness :
  MarkerCodec.step (LoadInitial 3 4)
                   (MarkerCodec.visiting "my trip" ["A"; "B"])
  = MarkerCodec.visiting "my trip" ["A"; "B"].
Proof.
  assert (Hne : "my trip" <> EmptyString) by discriminate.
  assert (Hclean : Forall (fun l => clean_label l = true) ["A"; "B"])
    by (repeat constructor).
  exact (own_hashchange_is_identity MarkerCodec.compress
           MarkerCodec.decompress 3 4
           (MarkerCodec.visiting "my trip" ["A"; "B"])
           "my trip" (conj eq_refl Hne)
           (visiting_synced "my trip" ["A"; "B"])
           eq_refl eq_refl Hclean (marker_survives "A,B" eq_refl)).
Defined.

Lemma shared_link_opens_the_list_witness :
  shareUrl MarkerCodec.compress "https://example.org" "/map"
           (MarkerCodec.step (Toggle "A") MarkerCodec.fresh)
  = "https://example.org/map#list=null&favs=QA"
  /\ listKey (MarkerCodec.step (LoadInitial 0 0)
                (MarkerCodec.shared "list=null&favs=QA")) = Some "null"
  /\ favorites (MarkerCodec.step (LoadInitial 0 0)
                  (MarkerCodec.shared "list=null&favs=QA")) = ["A"].
Proof.
  split; [reflexivity|].
  assert (Hne : "null" <> EmptyString) by discriminate.
  assert (Hclean : Forall (fun l => clean_label l = true) ["A"])
    by (repeat constructor).
  destruct (shared_link_opens_the_list MarkerCodec.compress
              MarkerCodec.decompress "https://example.org" "/map" 0 0
              (MarkerCodec.step (Toggle "A") MarkerCodec.fresh)
              (MarkerCodec.shared "list=null&favs=QA")
              Hne eq_refl Hclean (marker_survives "A" eq_refl) eq_refl)
    as [Hk [Hf _]].
  split; [exact Hk|exact Hf].
Defined.

End FavoritesFacts.

(** ** Stand geometry and exhibitor merge *)
Module MapViewFacts.
Import MapView Reference.

(** *** Lists with indices *)

Lemma mapi_from_length {A B} (f : A -> nat -> B) (l : list A) (i : nat) :
  List.length (JS.mapi_from i f l) = List.length l.
Proof.
  revert i. induction l as [|x l IH]; intros i; simpl; [reflexivity|].
  now rewrite IH.
Qed.

Lemma mapi_from_nth {A B} (f : A -> nat -> B) (l : list A) (i n : nat) :
  nth_error (JS.mapi_from i f l) n
  = option_map (fun x => f x (i + n)) (nth_error l n).
Proof.
  revert i n. induction l as [|x l IH]; intros i [|n]; simpl; try reflexivity.
  - now rewrite Nat.add_0_r.
  - rewrite IH. now rewrite Nat.add_succ_r.
Qed.

Lemma split_length (sep : ascii) (s : string) :
  1 <= List.length (JS.split sep s).
Proof.
  induction s as [|c s IH]; simpl; [lia|].
  destruct (Ascii.eqb c sep); simpl; [lia|].
  destruct (JS.split sep s); simpl; lia.
Qed.

Section Geometry.

Context {num : Type} {J : JsNumber num}.

Lemma neg_at_middle (pre : list num) (y : num) (ys : list num) :
  neg_at (pre ++ y :: ys) (List.length pre) = neg y.
Proof.
  unfold neg_at. rewrite nth_error_app2 by lia.
  now rewrite Nat.sub_diag.
Qed.

Lemma mapi_from_combine (xs ys pre : list num) :
  List.length xs = List.length ys ->
  JS.mapi_from (List.length pre) (fun x i => (neg_at (pre ++ ys) i, x)) xs
  = map (fun p => (neg (snd p), fst p)) (combine xs ys).
Proof.
  revert ys pre. induction xs as [|x xs IH]; intros [|y ys] pre Hlen;
    simpl in *; try discriminate; [reflexivity|].
  rewrite neg_at_middle. f_equal.
  specialize (IH ys (pre ++ [y]) ltac:(lia)).
  rewrite length_app, Nat.add_1_r, <- app_assoc in IH. exact IH.
Qed.

Lemma standPoints_present (e : SpielMapElement num) :
  present (XCOORDS e) -> present (YCOORDS e) ->
  standPoints e
  = JS.mapi (fun x i => (neg_at (tokens (YCOORDS e)) i, x))
            (tokens (XCOORDS e)).
Proof.
  unfold present, standPoints. now intros -> ->.
Qed.

Lemma standPoints_absent (e : SpielMapElement num) :
  ~ (present (XCOORDS e) /\ present (YCOORDS e)) ->
  standPoints e = rectangle e.
Proof.
  unfold present, standPoints. intros Hno.
  destruct (JS.truthy_opt (XCOORDS e)), (JS.truthy_opt (YCOORDS e));
    try reflexivity.
  exfalso. apply Hno. now split.
Qed.

Lemma standPoints_indexwise (e : SpielMapElement num) :
  present (XCOORDS e) -> present (YCOORDS e) ->
  List.length (standPoints e) = List.length (tokens (num := num) (XCOORDS e))
  /\ (forall i x,
         nth_error (tokens (XCOORDS e)) i = Some x ->
         nth_error (standPoints e) i
         = Some (neg_at (tokens (YCOORDS e)) i, x)).
Proof.
  intros Hx Hy. rewrite (standPoints_present e Hx Hy).
  unfold JS.mapi. split; [apply mapi_from_length|].
  intros i x Hi. rewrite mapi_from_nth, Hi. reflexivity.
Qed.

Lemma tokens_length (o : option string) :
  List.length (tokens (num := num) o)
  = List.length (JS.split "|" (JS.or_else o EmptyString)).
Proof. unfold tokens. apply length_map. Qed.

End Geometry.

(** C3. When both coordinate lists are present, the points are the
    pipe-split numeric tokens taken index by index, the pair (x, y) giving
    the point (-y, x); otherwise they are the four rectangle corners
    (-Y, X), (-Y, X+W), (-(Y+H), X+W), (-(Y+H), X) in this order. The two
    examples of the specification evaluate as stated. *)
Theorem geometry_adapter :
  (forall (num : Type) (J : JsNumber num) (e : SpielMapElement num),
      present (XCOORDS e) -> present (YCOORDS e) ->
      List.length (standPoints e) = List.length (tokens (num := num) (XCOORDS e))
      /\ (forall i x,
             nth_error (tokens (XCOORDS e)) i = Some x ->
             nth_error (standPoints e) i
             = Some (neg_at (tokens (YCOORDS e)) i, x))
      /\ (List.length (tokens (num := num) (XCOORDS e))
          = List.length (tokens (num := num) (YCOORDS e)) ->
          standPoints e
          = map (fun p => (neg (snd p), fst p))
                (combine (tokens (XCOORDS e)) (tokens (YCOORDS e)))))
  /\ (forall (num : Type) (J : JsNumber num) (e : SpielMapElement num),
         ~ (present (XCOORDS e) /\ present (YCOORDS e)) ->
         standPoints e
         = [ (neg (Y e), X e);
             (neg (Y e), add (X e) (W e));
             (neg (add (Y e) (H e)), add (X e) (W e));
             (neg (add (Y e) (H e)), X e) ])
  /\ (forall x y w h type stand_id name,
         standPoints (IntNumbers.element x y w h (Some "0|10|10|0")
                        (Some "0|0|10|10") type stand_id name)
         = [ (IntNumbers.Int 0, IntNumbers.Int 0);
             (IntNumbers.Int 0, IntNumbers.Int 10);
             (IntNumbers.Int (-10), IntNumbers.Int 10);
             (IntNumbers.Int (-10), IntNumbers.Int 0) ])
  /\ (forall type stand_id name,
         standPoints (IntNumbers.element 5 5 2 3 None None type stand_id name)
         = [ (IntNumbers.Int (-5), IntNumbers.Int 5);
             (IntNumbers.Int (-5), IntNumbers.Int 7);
             (IntNumbers.Int (-8), IntNumbers.Int 7);
             (IntNumbers.Int (-8), IntNumbers.Int 5) ]).
Proof.
  split; [|split; [|split]].
  - intros num J e Hx Hy.
    destruct (standPoints_indexwise e Hx Hy) as [Hlen Hnth].
    split; [exact Hlen|]. split; [exact Hnth|].
    intros Heq. rewrite (standPoints_present e Hx Hy).
    apply (mapi_from_combine _ _ [] Heq).
  - intros num J e Hno. now rewrite standPoints_absent.
  - intros. reflexivity.
  - intros. reflexivity.
Qed.

Lemma geometry_adapter_witness :
  present (Some "3|4") /\ present (Some "1|2")
  /\ standPoints (IntNumbers.element 0 0 0 0 (Some "3|4") (Some "1|2")
                    0 (Some "1.A") None)
     = [ (IntNumbers.Int (-1), IntNumbers.Int 3);
         (IntNumbers.Int (-2), IntNumbers.Int 4) ]
  /\ standPoints (IntNumbers.element 1 2 3 4 (Some "3|4") None
                    0 (Some "1.A") None)
     = [ (IntNumbers.Int (-2), IntNumbers.Int 1);
         (IntNumbers.Int (-2), IntNumbers.Int 4);
         (IntNumbers.Int (-6), IntNumbers.Int 4);
         (IntNumbers.Int (-6), IntNumbers.Int 1) ].
Proof.
  split; [reflexivity|]. split; [reflexivity|]. split.
  - exact (proj2 (proj2 (proj1 geometry_adapter _ _
             (IntNumbers.element 0 0 0 0 (Some "3|4") (Some "1|2")
                                 0 (Some "1.A") None)
             eq_refl eq_refl)) eq_refl).
  - assert (Hno : ~ (present (Some "3|4") /\ present None)).
    { intros [_ Hy]. discriminate Hy. }
    exact (proj1 (proj2 geometry_adapter) _ _
             (IntNumbers.element 1 2 3 4 (Some "3|4") None
                                 0 (Some "1.A") None) Hno).
Defined.

(** C10. With both coordinate lists present, the point list has as many
    points as XCOORDS has tokens, whatever the number of YCOORDS tokens;
    every point at an index past the YCOORDS tokens has NaN as its first
    coordinate; and the stand passes the filter on empty point lists, so a
    stand element of the selected hall appears among the stands. *)
Theorem unequal_coordinate_lists
        (num : Type) (J : JsNumber num) (e : SpielMapElement num) :
  present (XCOORDS e) -> present (YCOORDS e) ->
  List.length (standPoints e)
  = List.length (JS.split "|" (JS.or_else (XCOORDS e) EmptyString))
  /\ (forall i,
         List.length (JS.split "|" (JS.or_else (YCOORDS e) EmptyString)) <= i ->
         i < List.length (JS.split "|" (JS.or_else (XCOORDS e) EmptyString)) ->
         exists x, nth_error (standPoints e) i = Some (NaN, x))
  /\ (forall companies, hasPoints (toMapStand companies e) = true)
  /\ (forall selected mapElements companies,
         isStandElement e = true -> In e mapElements ->
         In (toMapStand companies e)
            (mapStands (Some selected) mapElements companies)).
Proof.
  intros Hx Hy.
  destruct (standPoints_indexwise e Hx Hy) as [Hlen Hnth].
  rewrite tokens_length in Hlen.
  assert (Hkept : forall companies, hasPoints (toMapStand companies e) = true).
  { intros companies. unfold hasPoints. cbn [points toMapStand].
    rewrite Hlen. apply Nat.ltb_lt.
    pose proof (split_length "|" (JS.or_else (XCOORDS e) EmptyString)). lia. }
  split; [exact Hlen|]. split; [|split; [exact Hkept|]].
  - intros i Hge Hlt. rewrite <- (tokens_length (num := num)) in Hge, Hlt.
    destruct (nth_error (tokens (XCOORDS e)) i) as [x|] eqn:Hi.
    + exists x. rewrite (Hnth i x Hi). unfold neg_at.
      now rewrite (proj2 (nth_error_None _ _) Hge).
    + apply nth_error_None in Hi. lia.
  - intros selected mapElements companies Hstand Hin. unfold mapStands.
    apply filter_In. split; [|apply Hkept].
    apply in_map, filter_In. now split.
Qed.

Lemma unequal_coordinate_lists_witness :
  present (Some "1|2|3") /\ present (Some "4")
  /\ standPoints (IntNumbers.element 0 0 0 0 (Some "1|2|3") (Some "4")
                    0 (Some "1.A") None)
     = [ (IntNumbers.Int (-4), IntNumbers.Int 1);
         (IntNumbers.NotANumber, IntNumbers.Int 2);
         (IntNumbers.NotANumber, IntNumbers.Int 3) ]
  /\ hasPoints (toMapStand [] (IntNumbers.element 0 0 0 0 (Some "1|2|3")
                                 (Some "4") 0 (Some "1.A") None)) = true.
Proof.
  split; [reflexivity|]. split; [reflexivity|]. split; [reflexivity|].
  exact (proj1 (proj2 (proj2
           (unequal_coordinate_lists _ _
              (IntNumbers.element 0 0 0 0 (Some "1|2|3") (Some "4")
                                  0 (Some "1.A") None)
              eq_refl eq_refl))) []).
Defined.


(** *** The booth name of a label *)

Lemma split_without_dot (s : string) :
  has_dot s = false -> JS.split "." s = [s].
Proof.
  induction s as [|c s IH]; simpl; [reflexivity|].
  destruct (Ascii.eqb c "."); simpl; [intros Hf; discriminate Hf|].
  intros Hs. now rewrite (IH Hs).
Qed.

Lemma split_with_dot (s : string) :
  has_dot s = true -> exists h t ts, JS.split "." s = h :: t :: ts.
Proof.
  induction s as [|c s IH]; simpl; [discriminate|].
  destruct (Ascii.eqb c "."); simpl.
  - intros _. pose proof (split_length "." s) as Hlen.
    destruct (JS.split "." s) as [|t ts]; simpl in Hlen; [lia|].
    now exists EmptyString, t, ts.
  - intros Hs. destruct (IH Hs) as [h [t [ts ->]]].
    now exists (String c h), t, ts.
Qed.

Lemma pop_split_dot (s : string) :
  JS.pop (JS.split "." s) = Some (afterLastDot s).
Proof.
  induction s as [|c s IH]; [reflexivity|].
  cbn [JS.split afterLastDot].
  destruct (has_dot s) eqn:Hdot.
  - destruct (split_with_dot s Hdot) as [h [t [ts Hsp]]].
    rewrite Hsp in *. destruct (Ascii.eqb c "."); exact IH.
  - rewrite (split_without_dot s Hdot).
    destruct (Ascii.eqb c "."); reflexivity.
Qed.

Lemma boothNameOf_afterLastDot (standId : string) :
  boothNameOf standId
  = if JS.truthy (afterLastDot standId) then afterLastDot standId else standId.
Proof. unfold boothNameOf. now rewrite pop_split_dot. Qed.

Lemma firstWebsite_firstNonEmpty (cs : list Company.t) :
  firstWebsite cs = firstNonEmptyWebsite cs.
Proof.
  unfold firstWebsite, firstNonEmptyWebsite.
  induction cs as [|c cs IH]; simpl; [reflexivity|].
  destruct c as [i n d [[|a w]|] b]; simpl; try exact IH.
  reflexivity.
Qed.

(** C4, as amended. The companies matched are those whose booth list
    contains the part of the label after its last dot, or the whole label
    when that part is empty. With matches: the title is their names joined
    with " / ", the description their descriptions joined with a blank
    line, the sibling booths the first match's booth list. Without a
    match: the title is the element's name or "Unknown", the description is
    "No description available", the booths are the booth name alone. The
    website is the first non-empty website among the matches, else empty.
    Companies A and B that both list E211 give the label 1.E211 the title
    "A / B". *)
Theorem exhibitor_merge :
  (forall (num : Type) (companies : list Company.t) (e : SpielMapElement num),
      let standId := standIdOf e in
      let boothName := if JS.truthy (afterLastDot standId)
                       then afterLastDot standId else standId in
      let matching := filter (fun c => JS.includes boothName (Company.booths c))
                             companies in
      Info.title (exhibitorOf companies e)
      = match matching with
        | [] => JS.or_else (NAME e) "Unknown"
        | _ :: _ => JS.join " / " (map Company.name matching)
        end
      /\ Info.description (exhibitorOf companies e)
         = match matching with
           | [] => "No description available"
           | _ :: _ => JS.join (LF ++ LF)%string
                               (map Company.description matching)
           end
      /\ Info.website (exhibitorOf companies e) = firstNonEmptyWebsite matching
      /\ Info.booths (exhibitorOf companies e)
         = match matching with
           | [] => [boothName]
           | c :: _ => Company.booths c
           end)
  /\ (forall x y w h xcoords ycoords type name idA idB dA dB wA wB,
         Info.title
           (exhibitorOf
              [ {| Company.id := idA; Company.name := "A";
                   Company.description := dA; Company.website := wA;
                   Company.booths := ["E211"] |};
                {| Company.id := idB; Company.name := "B";
                   Company.description := dB; Company.website := wB;
                   Company.booths := ["E211"] |} ]
              (IntNumbers.element x y w h xcoords ycoords type
                                  (Some "1.E211") name))
         = "A / B").
Proof.
  split.
  - intros num companies e standId boothName matching.
    assert (Hm : matchingCompaniesOf companies (boothNameOf (standIdOf e))
                 = matching).
    { unfold matchingCompaniesOf. now rewrite boothNameOf_afterLastDot. }
    unfold exhibitorOf. cbn [Info.title Info.description Info.website
                             Info.booths].
    rewrite Hm, boothNameOf_afterLastDot, firstWebsite_firstNonEmpty.
    fold standId. fold boothName.
    destruct matching; repeat split.
  - intros. reflexivity.
Qed.

(** C4 as stated fails for a stand no company claims: its description is
    the placeholder text, not the empty join; and a label that ends in a
    dot is matched as a whole. *)
Lemma unmatched_stand_description :
  Info.description
    (exhibitorOf [] (IntNumbers.element 0 0 1 1 None None 0 (Some "1.A1") None))
  = "No description available"
  /\ Info.description
       (exhibitorOf []
          (IntNumbers.element 0 0 1 1 None None 0 (Some "1.A1") None))
     <> JS.join (LF ++ LF)%string
          (map Company.description
             (matchingCompaniesOf [] (afterLastDot "1.A1")))
  /\ boothNameOf "1." <> afterLastDot "1.".
Proof.
  split; [reflexivity|]. split; vm_compute; discriminate.
Qed.


(** *** Further properties of the stand conversion *)

Section MoreGeometry.

Context {num : Type} {J : JsNumber num}.

Lemma standPoints_nonempty (e : SpielMapElement num) :
  1 <= List.length (standPoints e).
Proof.
  unfold standPoints.
  destruct (JS.truthy_opt (XCOORDS e) && JS.truthy_opt (YCOORDS e)).
  - unfold JS.mapi. rewrite mapi_from_length, length_map.
    apply split_length.
  - simpl. lia.
Qed.

Lemma filter_all {A} (f : A -> bool) (l : list A) :
  (forall x, In x l -> f x = true) -> filter f l = l.
Proof.
  induction l as [|x l IH]; simpl; intros Hall; [reflexivity|].
  rewrite (Hall x (or_introl eq_refl)). f_equal. apply IH.
  intros y Hy. apply Hall. now right.
Qed.

Lemma hasPoints_always (companies : list Company.t)
      (e : SpielMapElement num) :
  hasPoints (toMapStand companies e) = true.
Proof.
  unfold hasPoints. cbn [points toMapStand]. apply Nat.ltb_lt.
  apply standPoints_nonempty.
Qed.

(** X15. Every element converts to at least one point, so the filter on
    empty point lists never drops a stand: the stands of a selected hall
    are the conversions of its stand elements, one each and in order; with
    no hall selected there are none. *)
Theorem no_stand_is_dropped (selected : SpielMapInfo)
        (mapElements : list (SpielMapElement num))
        (companies : list Company.t) :
  (forall e, standPoints e <> [])
  /\ mapStands (Some selected) mapElements companies
     = map (toMapStand companies) (filter isStandElement mapElements)
  /\ mapStands None mapElements companies = [].
Proof.
  split; [|split; [|reflexivity]].
  - intros e Hnil. pose proof (standPoints_nonempty e) as Hlen.
    rewrite Hnil in Hlen. simpl in Hlen. lia.
  - unfold mapStands. apply filter_all.
    intros st Hin. apply in_map_iff in Hin. destruct Hin as [e [<- _]].
    apply hasPoints_always.
Qed.

Lemma standIdOf_truthy (e : SpielMapElement num) :
  JS.truthy_opt (STAND_ID e) || JS.truthy_opt (NAME e) = true ->
  JS.truthy (standIdOf e) = true.
Proof.
  unfold standIdOf, JS.or_else.
  destruct (STAND_ID e) as [[|a sid]|], (NAME e) as [[|b nm]|];
    simpl; intros H; try reflexivity; discriminate H.
Qed.

(** X16. Every stand shown stems from an element of the hall with TYPE 0;
    its label is that element's STAND_ID, or its NAME when the STAND_ID is
    missing or empty; the label is never empty and is also the exhibitor's
    stand. *)
Theorem stands_stem_from_booth_elements
        (selected : option SpielMapInfo)
        (mapElements : list (SpielMapElement num))
        (companies : list Company.t) (stand : MapStand num) :
  In stand (mapStands selected mapElements companies) ->
  exists e,
    In e mapElements /\ TYPE e = 0%Z /\ stand = toMapStand companies e
    /\ label stand = JS.or_else (STAND_ID e) (JS.or_else (NAME e) EmptyString)
    /\ label stand <> EmptyString
    /\ Info.stand (exhibitor stand) = label stand.
Proof.
  destruct selected as [sel|]; [|intros []].
  unfold mapStands. intros Hin.
  apply filter_In in Hin. destruct Hin as [Hin _].
  apply in_map_iff in Hin. destruct Hin as [e [<- He]].
  apply filter_In in He. destruct He as [He Hstand].
  unfold isStandElement in Hstand. apply andb_prop in Hstand.
  destruct Hstand as [Htype Hlabel].
  exists e. split; [assumption|]. split; [now apply Z.eqb_eq|].
  split; [reflexivity|]. split; [reflexivity|]. split; [|reflexivity].
  cbn [label toMapStand]. pose proof (standIdOf_truthy e Hlabel) as Ht.
  intros Heq. rewrite Heq in Ht. discriminate.
Qed.

Lemma mapi_from_combine_le (xs ys pre : list num) :
  List.length xs <= List.length ys ->
  JS.mapi_from (List.length pre) (fun x i => (neg_at (pre ++ ys) i, x)) xs
  = map (fun p => (neg (snd p), fst p)) (combine xs ys).
Proof.
  revert ys pre. induction xs as [|x xs IH]; intros [|y ys] pre Hlen;
    simpl in *; try reflexivity; [lia|].
  rewrite neg_at_middle. f_equal.
  specialize (IH ys (pre ++ [y]) ltac:(lia)).
  rewrite length_app, Nat.add_1_r, <- app_assoc in IH. exact IH.
Qed.

Lemma combine_firstn_r {A B} (xs : list A) (ys : list B) :
  combine xs (firstn (List.length xs) ys) = combine xs ys.
Proof.
  revert ys. induction xs as [|x xs IH]; intros [|y ys]; simpl;
    try reflexivity.
  now rewrite IH.
Qed.

(** X17. When YCOORDS has at least as many tokens as XCOORDS, the points
    are the pairs of the X tokens with the first Y tokens, each (x, y)
    given as (-y, x); the surplus Y tokens have no effect. *)
Theorem surplus_y_tokens_ignored (e : SpielMapElement num) :
  present (XCOORDS e) -> present (YCOORDS e) ->
  List.length (tokens (num := num) (XCOORDS e))
  <= List.length (tokens (num := num) (YCOORDS e)) ->
  standPoints e
  = map (fun p => (neg (snd p), fst p))
        (combine (tokens (XCOORDS e))
                 (firstn (List.length (tokens (num := num) (XCOORDS e)))
                         (tokens (YCOORDS e)))).
Proof.
  intros Hx Hy Hlen. rewrite (standPoints_present e Hx Hy).
  rewrite combine_firstn_r. apply (mapi_from_combine_le _ _ [] Hlen).
Qed.

End MoreGeometry.

Lemma surplus_y_tokens_ignored_witness :
  present (Some "1|2") /\ present (Some "3|4|5|6")
  /\ standPoints (IntNumbers.element 0 0 0 0 (Some "1|2") (Some "3|4|5|6")
                    0 (Some "1.A") None)
     = [ (IntNumbers.Int (-3), IntNumbers.Int 1);
         (IntNumbers.Int (-4), IntNumbers.Int 2) ].
Proof.
  split; [reflexivity|]. split; [reflexivity|].
  assert (Hlen : 2 <= 4) by lia.
  exact (surplus_y_tokens_ignored
           (IntNumbers.element 0 0 0 0 (Some "1|2") (Some "3|4|5|6")
                               0 (Some "1.A") None)
           eq_refl eq_refl Hlen).
Defined.

Lemma stands_stem_from_booth_elements_witness :
  exists e,
    In e [IntNumbers.element 1 2 3 4 None None 0 None (Some "Cafe")]
    /\ MapView.TYPE e = 0%Z
    /\ toMapStand [] (IntNumbers.element 1 2 3 4 None None 0 None (Some "Cafe"))
       = toMapStand [] e
    /\ label (toMapStand []
                (IntNumbers.element 1 2 3 4 None None 0 None (Some "Cafe")))
       = JS.or_else (STAND_ID e) (JS.or_else (NAME e) EmptyString)
    /\ label (toMapStand []
                (IntNumbers.element 1 2 3 4 None None 0 None (Some "Cafe")))
       <> EmptyString
    /\ Info.stand
         (exhibitor (toMapStand []
            (IntNumbers.element 1 2 3 4 None None 0 None (Some "Cafe"))))
       = label (toMapStand []
                  (IntNumbers.element 1 2 3 4 None None 0 None (Some "Cafe"))).
Proof.
  apply (stands_stem_from_booth_elements
           (Some {| map_ID := "1"; map_W := 100; map_H := 100;
                    map_NAME := "Hall 1"; PARENT_ELEMENT_ID := "0";
                    FLOOR := 0 |})
           [IntNumbers.element 1 2 3 4 None None 0 None (Some "Cafe")] []).
  left. reflexivity.
Defined.

(** *** Further properties of the exhibitor merge *)

Lemma afterLastDot_suffix (s : string) :
  exists p, s = (p ++ afterLastDot s)%string.
Proof.
  induction s as [|c s [p IH]]; [now exists EmptyString|].
  cbn [afterLastDot]. destruct (has_dot s).
  - exists (String c p). simpl. now rewrite <- IH.
  - destruct (Ascii.eqb c ".").
    + now exists (String c EmptyString).
    + now exists EmptyString.
Qed.

Lemma afterLastDot_no_dot (s : string) : has_dot (afterLastDot s) = false.
Proof.
  induction s as [|c s IH]; [reflexivity|].
  cbn [afterLastDot]. destruct (has_dot s) eqn:Hs; [assumption|].
  destruct (Ascii.eqb c ".") eqn:Ec; [assumption|].
  simpl. now rewrite Ec, Hs.
Qed.

Lemma afterLastDot_empty (s : string) :
  afterLastDot s = EmptyString ->
  s = EmptyString \/ exists p, s = (p ++ ".")%string.
Proof.
  induction s as [|c s IH]; [now left|].
  cbn [afterLastDot]. destruct (has_dot s) eqn:Hs.
  - intros He. right. destruct (IH He) as [-> | [p ->]]; [discriminate|].
    now exists (String c p).
  - destruct (Ascii.eqb c ".") eqn:Ec; [|discriminate].
    intros ->. right. apply Ascii.eqb_eq in Ec. subst c.
    now exists EmptyString.
Qed.

(** X18. The booth name used for matching is always a suffix of the
    label, it is empty only for the empty label, and it contains a dot
    only when the label ends in a dot. *)
Theorem booth_name_is_label_suffix (standId : string) :
  (exists p, standId = (p ++ boothNameOf standId)%string)
  /\ (boothNameOf standId = EmptyString -> standId = EmptyString)
  /\ (has_dot (boothNameOf standId) = true ->
      exists p, standId = (p ++ ".")%string).
Proof.
  rewrite boothNameOf_afterLastDot.
  destruct (JS.truthy (afterLastDot standId)) eqn:Ht.
  - split; [apply afterLastDot_suffix|]. split.
    + intros He. rewrite He in Ht. discriminate.
    + rewrite afterLastDot_no_dot. discriminate.
  - split; [now exists EmptyString|]. split; [tauto|].
    intros Hdot.
    assert (He : afterLastDot standId = EmptyString)
      by (destruct (afterLastDot standId); [reflexivity|discriminate]).
    destruct (afterLastDot_empty standId He) as [-> | Hp];
      [discriminate|assumption].
Qed.

Lemma booth_name_is_label_suffix_witness :
  has_dot (boothNameOf "1.") = true /\ exists p, "1." = (p ++ ".")%string.
Proof.
  split; [reflexivity|].
  exact (proj2 (proj2 (booth_name_is_label_suffix "1.")) eq_refl).
Defined.

Lemma boothName_in_booths {num : Type} (companies : list Company.t)
      (e : SpielMapElement num) :
  In (boothNameOf (standIdOf e)) (Info.booths (exhibitorOf companies e)).
Proof.
  unfold exhibitorOf. cbn [Info.booths].
  destruct (matchingCompaniesOf companies (boothNameOf (standIdOf e)))
    as [|c rest] eqn:Hm; [now left|].
  assert (Hin : In c (matchingCompaniesOf companies
                                          (boothNameOf (standIdOf e))))
    by (rewrite Hm; now left).
  apply filter_In in Hin. destruct Hin as [_ Hinc].
  now apply FavoritesFacts.includes_In.
Qed.

(** X19. The booth list of a stand always contains the stand's own booth
    name, matched or not, and is therefore never empty. *)
Theorem own_booth_is_listed (num : Type) (companies : list Company.t)
        (e : SpielMapElement num) :
  In (boothNameOf (standIdOf e)) (Info.booths (exhibitorOf companies e))
  /\ Info.booths (exhibitorOf companies e) <> [].
Proof.
  pose proof (boothName_in_booths companies e) as Hin.
  split; [exact Hin|]. intros Hnil. rewrite Hnil in Hin. destruct Hin.
Qed.

Lemma filter_keeps_other (x label : string) (l : list string) :
  In x l -> x <> label ->
  In x (filter (fun b => negb (String.eqb b label)) l).
Proof.
  intros Hin Hne. apply filter_In. split; [assumption|].
  destruct (String.eqb x label) eqn:E; [|reflexivity].
  apply String.eqb_eq in E. contradiction.
Qed.

(** X20. The popup shows no "Additional booths" line for a stand no
    company claims. When a line is shown, it is the comma-separated booth
    list of the first matching company without the entries equal to the
    label; since booths are compared with the whole label, a label that
    differs from its booth name (a prefixed label) has its own booth name
    in that line. *)
Theorem additional_booths_line (num : Type) (J : JsNumber num)
        (companies : list Company.t) (e : SpielMapElement num) :
  (matchingCompaniesOf companies (boothNameOf (standIdOf e)) = [] ->
   additionalBooths (toMapStand companies e) = None)
  /\ (forall text,
         additionalBooths (toMapStand companies e) = Some text ->
         exists c rest,
           matchingCompaniesOf companies (boothNameOf (standIdOf e))
           = c :: rest
           /\ 1 < List.length (Company.booths c)
           /\ text = JS.join ", "
                       (filter (fun b => negb (String.eqb b (standIdOf e)))
                               (Company.booths c))
           /\ (boothNameOf (standIdOf e) <> standIdOf e ->
               In (boothNameOf (standIdOf e))
                  (filter (fun b => negb (String.eqb b (standIdOf e)))
                          (Company.booths c)))).
Proof.
  pose proof (boothName_in_booths companies e) as Hown.
  unfold additionalBooths, toMapStand, exhibitorOf in *.
  cbn [exhibitor label Info.booths] in *.
  destruct (matchingCompaniesOf companies (boothNameOf (standIdOf e)))
    as [|c rest].
  - split; [reflexivity|]. intros text Ht. discriminate Ht.
  - split; [intros Hnil; discriminate Hnil|].
    intros text Ht.
    destruct (1 <? List.length (Company.booths c))%nat eqn:Hlen;
      [|discriminate Ht].
    injection Ht as <-. exists c, rest.
    split; [reflexivity|]. split; [now apply Nat.ltb_lt|].
    split; [reflexivity|]. intros Hne. now apply filter_keeps_other.
Qed.

Lemma additional_booths_line_witness :
  additionalBooths
    (toMapStand
       [ {| Company.id := 1; Company.name := "A";
            Company.description := EmptyString; Company.website := None;
            Company.booths := ["E211"; "E212"] |} ]
       (IntNumbers.element 0 0 1 1 None None 0 (Some "1.E211") None))
  = Some "E211, E212"
  /\ additionalBooths
       (toMapStand []
          (IntNumbers.element 0 0 1 1 None None 0 (Some "1.E211") None))
     = None.
Proof.
  split; [reflexivity|].
  exact (proj1 (additional_booths_line _ _ []
                  (IntNumbers.element 0 0 1 1 None None 0 (Some "1.E211") None))
               eq_refl).
Defined.

(** *** The hall and its image box *)

(** X22. The rectangle of a stand that lies within the hall's pixel
    rectangle (0 <= X, X+W <= hall width, 0 <= Y, Y+H <= hall height, with
    W and H not negative) has all four points inside the box of the image
    overlay: the flip to (-y, x) matches the box from (-height, 0) to
    (0, width). *)
Theorem rectangle_inside_image (hall : SpielMapInfo) (x y w h type : Z)
        (stand_id name : option string) :
  (0 <= x)%Z -> (0 <= w)%Z -> (x + w <= map_W hall)%Z ->
  (0 <= y)%Z -> (0 <= h)%Z -> (y + h <= map_H hall)%Z ->
  Forall (fun p => exists lat lng,
              p = (IntNumbers.Int lat, IntNumbers.Int lng)
              /\ inside (bounds (Some hall)) (lat, lng))
         (standPoints (IntNumbers.element x y w h None None type
                                          stand_id name)).
Proof.
  intros Hx Hw Hxw Hy Hh Hyh.
  assert (Hin : forall lat lng,
             (- map_H hall <= lat <= 0)%Z -> (0 <= lng <= map_W hall)%Z ->
             inside (bounds (Some hall)) (lat, lng)).
  { intros lat lng Hlat Hlng. unfold inside, bounds. cbn [fst snd]. lia. }
  unfold standPoints, rectangle. cbn.
  repeat constructor.
  - exists (- y)%Z, x. split; [reflexivity|apply Hin; lia].
  - exists (- y)%Z, (x + w)%Z. split; [reflexivity|apply Hin; lia].
  - exists (- (y + h))%Z, (x + w)%Z. split; [reflexivity|apply Hin; lia].
  - exists (- (y + h))%Z, x. split; [reflexivity|apply Hin; lia].
Qed.

Lemma rectangle_inside_image_witness :
  Forall (fun p => exists lat lng,
              p = (IntNumbers.Int lat, IntNumbers.Int lng)
              /\ inside (bounds (Some {| map_ID := "1"; map_W := 3425;
                                         map_H := 2412; map_NAME := "Hall 1";
                                         PARENT_ELEMENT_ID := "0";
                                         FLOOR := 0 |}))
                        (lat, lng))
         (standPoints (IntNumbers.element 5 5 2 3 None None 0
                                          (Some "1.A") None)).
Proof.
  apply (rectangle_inside_image
           {| map_ID := "1"; map_W := 3425; map_H := 2412;
              map_NAME := "Hall 1"; PARENT_ELEMENT_ID := "0"; FLOOR := 0 |}
           5 5 2 3 0 (Some "1.A") None); cbn; lia.
Defined.

Lemma find_first {A} (f : A -> bool) (pre : list A) (m : A) (post : list A) :
  f m = true -> (forall x, In x pre -> f x = false) ->
  find f (pre ++ m :: post) = Some m.
Proof.
  intros Hm. induction pre as [|x pre IH]; simpl; intros Hpre.
  - now rewrite Hm.
  - rewrite (Hpre x (or_introl eq_refl)). apply IH.
    intros y Hy. apply Hpre. now right.
Qed.

Lemma find_nothing {A} (f : A -> bool) (l : list A) :
  (forall x, In x l -> f x = false) -> find f l = None.
Proof.
  induction l as [|x l IH]; simpl; intros Hl; [reflexivity|].
  rewrite (Hl x (or_introl eq_refl)). apply IH.
  intros y Hy. apply Hl. now right.
Qed.

Lemma id_is_not_one (x : SpielMapInfo) :
  map_ID x <> "1" -> String.eqb (map_ID x) "1" = false.
Proof.
  intros Hne. destruct (String.eqb (map_ID x) "1") eqn:E; [|reflexivity].
  apply String.eqb_eq in E. contradiction.
Qed.

(** X23. The hall selected after the index is loaded is the first hall of
    the index whose ID is 1; when no hall has ID 1 it is the first hall of
    the index, and nothing is selected for an empty index. *)
Theorem initial_hall (maps : list SpielMapInfo) :
  (forall pre m post,
      maps = pre ++ m :: post ->
      map_ID m = "1" ->
      (forall x, In x pre -> map_ID x <> "1") ->
      initialMap maps = Some m)
  /\ ((forall x, In x maps -> map_ID x <> "1") ->
      initialMap maps = hd_error maps).
Proof.
  unfold initialMap. split.
  - intros pre m post -> Hm Hpre.
    rewrite (find_first _ pre m post); [reflexivity| |].
    + rewrite Hm. reflexivity.
    + intros x Hx. apply id_is_not_one. now apply Hpre.
  - intros Hnone. rewrite find_nothing; [reflexivity|].
    intros x Hx. apply id_is_not_one. now apply Hnone.
Qed.

Lemma initial_hall_witness :
  initialMap
    [ {| map_ID := "0"; map_W := 10; map_H := 10; map_NAME := "Fairground";
         PARENT_ELEMENT_ID := "0"; FLOOR := 0 |};
      {| map_ID := "1"; map_W := 10; map_H := 10; map_NAME := "Hall 1";
         PARENT_ELEMENT_ID := "0"; FLOOR := 0 |};
      {| map_ID := "1"; map_W := 20; map_H := 20; map_NAME := "Hall 1b";
         PARENT_ELEMENT_ID := "0"; FLOOR := 1 |} ]
  = Some {| map_ID := "1"; map_W := 10; map_H := 10; map_NAME := "Hall 1";
            PARENT_ELEMENT_ID := "0"; FLOOR := 0 |}
  /\ initialMap
       [ {| map_ID := "GA"; map_W := 10; map_H := 10; map_NAME := "Galeria";
            PARENT_ELEMENT_ID := "0"; FLOOR := 0 |};
         {| map_ID := "2"; map_W := 10; map_H := 10; map_NAME := "Hall 2";
            PARENT_ELEMENT_ID := "0"; FLOOR := 0 |} ]
     = Some {| map_ID := "GA"; map_W := 10; map_H := 10;
               map_NAME := "Galeria"; PARENT_ELEMENT_ID := "0"; FLOOR := 0 |}.
Proof.
  split.
  - apply (proj1 (initial_hall _)
             [ {| map_ID := "0"; map_W := 10; map_H := 10;
                  map_NAME := "Fairground"; PARENT_ELEMENT_ID := "0";
                  FLOOR := 0 |} ]
             _
             [ {| map_ID := "1"; map_W := 20; map_H := 20;
                  map_NAME := "Hall 1b"; PARENT_ELEMENT_ID := "0";
                  FLOOR := 1 |} ]); [reflexivity|reflexivity|].
    intros x [<-|[]]. discriminate.
  - apply (proj2 (initial_hall
             [ {| map_ID := "GA"; map_W := 10; map_H := 10;
                  map_NAME := "Galeria"; PARENT_ELEMENT_ID := "0";
                  FLOOR := 0 |};
               {| map_ID := "2"; map_W := 10; map_H := 10;
                  map_NAME := "Hall 2"; PARENT_ELEMENT_ID := "0";
                  FLOOR := 0 |} ])).
    intros x [<-|[<-|[]]]; discriminate.
Defined.

Lemma no_stand_is_dropped_witness :
  standPoints (IntNumbers.element 0 0 0 0 (Some "x") (Some "y") 0
                                  (Some "1.A") None) <> [].
Proof.
  exact (proj1 (no_stand_is_dropped
                  {| map_ID := "1"; map_W := 10; map_H := 10;
                     map_NAME := "Hall 1"; PARENT_ELEMENT_ID := "0";
                     FLOOR := 0 |} [] [])
               (IntNumbers.element 0 0 0 0 (Some "x") (Some "y") 0
                                   (Some "1.A") None)).
Defined.

Lemma own_booth_is_listed_witness :
  In "E211"
     (Info.booths
        (exhibitorOf
           [ {| Company.id := 1; Company.name := "A";
                Company.description := EmptyString; Company.website := None;
                Company.booths := ["E210"; "E211"] |} ]
           (IntNumbers.element 0 0 1 1 None None 0 (Some "1.E211") None))).
Proof.
  exact (proj1 (own_booth_is_listed _
                  [ {| Company.id := 1; Company.name := "A";
                       Company.description := EmptyString;
                       Company.website := None;
                       Company.booths := ["E210"; "E211"] |} ]
                  (IntNumbers.element 0 0 1 1 None None 0 (Some "1.E211")
                                      None))).
Defined.

End MapViewFacts.

(** ** The print zoom *)
Module PrintFacts.
Import Print.

Lemma table_levels (hallId : string) (z : Q) :
  lookup hallId hallZoomLevels = Some z ->
  negb (Qeq_bool z 0) = true /\ (-2.75 <= z /\ z <= -1)%Q
  /\ In hallId (map fst hallZoomLevels).
Proof.
  unfold hallZoomLevels. cbn [lookup map fst].
  repeat match goal with
         | |- context [String.eqb ?k hallId] =>
             destruct (String.eqb k hallId) eqn:E;
             [apply String.eqb_eq in E; subst hallId;
              intros Hz; injection Hz as <-;
              split; [reflexivity|];
              split; [split; unfold Qle; simpl; lia|];
              simpl; tauto
             |clear E]
         end.
  intros Hz. discriminate Hz.
Qed.

Lemma lookup_outside (hallId : string) :
  ~ In hallId (map fst hallZoomLevels) -> lookup hallId hallZoomLevels = None.
Proof.
  intros Hout. destruct (lookup hallId hallZoomLevels) as [z|] eqn:E;
    [|reflexivity].
  destruct (table_levels _ _ E) as [_ [_ Hin]]. contradiction.
Qed.

(** C8, as amended. A supplied custom zoom is the print zoom, whatever the
    hall. Without one, each of the eleven hall ids of the table gives its
    level; a hall id that is neither in the table nor the name of a member
    inherited from Object.prototype gives -2, and so does a missing or
    empty hall id. *)
Theorem print_zoom_resolution :
  (forall z hallId, printZoom (Some z) hallId = Level z)
  /\ map (fun entry => (fst entry, printZoom None (Some (fst entry))))
         hallZoomLevels
     = [ ("1", Level (-1.65)); ("2", Level (-1.65)); ("3", Level (-2.75));
         ("4", Level (-2)); ("5", Level (-2.25)); ("6", Level (-1.75));
         ("7", Level (-2)); ("GA", Level (-2.75)); ("FG1", Level (-1.75));
         ("FG2", Level (-2)); ("FG3", Level (-1)) ]%Q
  /\ (forall hallId,
         ~ In hallId (map fst hallZoomLevels) ->
         ~ In hallId objectPrototype ->
         printZoom None (Some hallId) = Level (-2)%Q)
  /\ printZoom None None = Level (-2)%Q
  /\ printZoom None (Some EmptyString) = Level (-2)%Q.
Proof.
  split; [reflexivity|]. split; [reflexivity|]. split; [|split; reflexivity].
  intros hallId Htable Hproto.
  destruct hallId as [|c h]; [reflexivity|].
  unfold printZoom. cbn [JS.truthy_opt JS.truthy JS.template].
  unfold getProperty. rewrite (lookup_outside _ Htable).
  destruct (JS.includes (String c h) objectPrototype) eqn:E; [|reflexivity].
  apply FavoritesFacts.includes_In in E. contradiction.
Qed.

Lemma print_zoom_resolution_witness :
  ~ In "8" (map fst hallZoomLevels) /\ ~ In "8" objectPrototype
  /\ printZoom None (Some "8") = Level (-2)%Q.
Proof.
  assert (Ht : ~ In "8" (map fst hallZoomLevels)).
  { simpl. intros H. repeat (destruct H as [H|H]; [discriminate H|]).
    exact H. }
  assert (Hp : ~ In "8" objectPrototype).
  { simpl. intros H. repeat (destruct H as [H|H]; [discriminate H|]).
    exact H. }
  split; [exact Ht|]. split; [exact Hp|].
  exact (proj1 (proj2 (proj2 print_zoom_resolution)) "8" Ht Hp).
Defined.

(** C8 as stated fails for a hall id that names an inherited member: it is
    not in the table, yet the print zoom is that member, not -2. *)
Lemma inherited_name_is_not_fallback :
  ~ In "toString" (map fst hallZoomLevels)
  /\ printZoom None (Some "toString") = Inherited "toString"
  /\ printZoom None (Some "toString") <> Level (-2)%Q.
Proof.
  split; [|split; [reflexivity|discriminate]].
  simpl. intros H. repeat (destruct H as [H|H]; [discriminate H|]). exact H.
Qed.

(** X21. Without a custom zoom the print zoom is either a zoom-out level
    between -2.75 and -1, or, only for a hall id that names a member
    inherited from Object.prototype, that member. *)
Theorem print_zoom_is_zoom_out (hallId : option string) :
  match printZoom None hallId with
  | Level z => (-2.75 <= z /\ z <= -1)%Q
  | Inherited name => hallId = Some name /\ In name objectPrototype
  end.
Proof.
  assert (Hfallback : (-2.75 <= -2 /\ -2 <= -1)%Q)
    by (split; unfold Qle; simpl; lia).
  unfold printZoom. destruct hallId as [[|c h]|]; try exact Hfallback.
  cbn [JS.truthy_opt JS.truthy JS.template]. unfold getProperty.
  destruct (lookup (String c h) hallZoomLevels) as [z|] eqn:E.
  - destruct (table_levels _ _ E) as [Ht [Hr _]].
    cbn [truthy_value]. rewrite Ht. exact Hr.
  - destruct (JS.includes (String c h) objectPrototype) eqn:Ei;
      [|exact Hfallback].
    cbn [truthy_value]. split; [reflexivity|].
    now apply FavoritesFacts.includes_In.
Qed.

End PrintFacts.
